(** * Equal-weight portfolio analysis: returns and indicators

    A shallow embedding of [functions.py]: [calcular_rentabilidad] (the
    equal-weight daily return series of a price table) and
    [calcular_indicadores] (annualised return, annualised volatility, Sharpe
    ratio, cumulative return, maximum drawdown).

    Numbers.  The program computes on binary64 values.  They are modelled by
    [float64]: a real number or one of the special values +inf, -inf and NaN,
    with the IEEE 754 rules for the special values (division by zero, inf - inf,
    0 * inf, NaN propagation).  Arithmetic on finite values is the exact
    arithmetic of the reals: rounding, the finite range of binary64
    (overflow to an infinity, underflow to zero) and the sign of zero are not
    modelled.  The statements below say which formula a field holds, how two
    results relate, or what happens on special values; where a statement
    gives an exact value or a bound, it is one that binary64 gives as well.
    The one place where the range decides between a result and an exception,
    the conversion of a Python int to a float, is modelled.

    pandas.  The frame and series methods the two functions call are modelled
    from the pandas documentation, with their default arguments ([skipna=True],
    [ddof=1], [min_count=0]).  The one default that differs between pandas
    versions, the [fill_method] of [pct_change], is an explicit argument. *)

From Stdlib Require Import String ZArith Reals Lra Lia Bool Arith List
  Permutation.
Import ListNotations.

Open Scope R_scope.

(** ** binary64 values and numpy scalar arithmetic *)

Module Np.

Inductive float64 : Type :=
| Finite (x : R)
| PosInf
| NegInf
| NaN.

(** Sign of a real number: [Lt] negative, [Eq] zero, [Gt] positive. *)
Definition Rsgn (x : R) : comparison :=
  match total_order_T x 0 with
  | inleft (left _) => Lt
  | inleft (right _) => Eq
  | inright _ => Gt
  end.

Definition isnan (a : float64) : bool :=
  match a with NaN => true | _ => false end.


Definition add (a b : float64) : float64 :=
  match a, b with
  | NaN, _ | _, NaN => NaN
  | Finite x, Finite y => Finite (x + y)
  | PosInf, NegInf | NegInf, PosInf => NaN
  | PosInf, _ | _, PosInf => PosInf
  | NegInf, _ | _, NegInf => NegInf
  end.

Definition opp (a : float64) : float64 :=
  match a with
  | Finite x => Finite (- x)
  | PosInf => NegInf
  | NegInf => PosInf
  | NaN => NaN
  end.

Definition sub (a b : float64) : float64 := add a (opp b).

(** An infinity scaled by a finite factor: the factor's sign decides, and
    a zero factor gives NaN. *)
Definition scale_inf (positive : bool) (x : R) : float64 :=
  match Rsgn x with
  | Gt => if positive then PosInf else NegInf
  | Lt => if positive then NegInf else PosInf
  | Eq => NaN
  end.

Definition mul (a b : float64) : float64 :=
  match a, b with
  | NaN, _ | _, NaN => NaN
  | Finite x, Finite y => Finite (x * y)
  | Finite x, PosInf | PosInf, Finite x => scale_inf true x
  | Finite x, NegInf | NegInf, Finite x => scale_inf false x
  | PosInf, PosInf | NegInf, NegInf => PosInf
  | PosInf, NegInf | NegInf, PosInf => NegInf
  end.

(** numpy division of two binary64 scalars: no exception is raised, a zero
    divisor gives an infinity (nonzero dividend) or NaN (zero dividend). *)
Definition div (a b : float64) : float64 :=
  match a, b with
  | NaN, _ | _, NaN => NaN
  | Finite x, Finite y =>
      match Rsgn y with
      | Eq => scale_inf true x
      | _ => Finite (x / y)
      end
  | Finite _, _ => Finite 0
  | PosInf, Finite y => match Rsgn y with Lt => NegInf | _ => PosInf end
  | NegInf, Finite y => match Rsgn y with Lt => PosInf | _ => NegInf end
  | _, _ => NaN
  end.

(** [a ** n] for a count [n]: [a ** 0] is 1 for every [a], NaN included. *)
Fixpoint pow (a : float64) (n : nat) : float64 :=
  match n with
  | O => Finite 1
  | S k => mul a (pow a k)
  end.

(** [np.sqrt]. *)
Definition sqrt (a : float64) : float64 :=
  match a with
  | Finite x => match Rsgn x with Lt => NaN | _ => Finite (R_sqrt.sqrt x) end
  | PosInf => PosInf
  | NegInf | NaN => NaN
  end.

(** [a < b]; false when either side is NaN. *)
Definition ltb (a b : float64) : bool :=
  match a, b with
  | NaN, _ | _, NaN => false
  | Finite x, Finite y => if Rlt_dec x y then true else false
  | _, NegInf => false
  | NegInf, _ => true
  | PosInf, _ => false
  | Finite _, PosInf => true
  end.

(** [np.maximum] and [np.minimum]: a NaN operand is returned. *)
Definition maximum (a b : float64) : float64 :=
  if isnan a then a else if isnan b then b else if ltb a b then b else a.

Definition minimum (a b : float64) : float64 :=
  if isnan a then a else if isnan b then b else if ltb b a then b else a.

End Np.

Import Np.

(** ** Python exceptions and results *)

Inductive exception : Type :=
| ZeroDivisionError   (* [1 / 0] on Python ints *)
| ValueError          (* pandas: "Dot product shape mismatch" *)
| OverflowError.      (* "int too large to convert to float" *)

Inductive result (A : Type) : Type :=
| Ok (a : A)
| Raise (e : exception).

Arguments Ok {A} a.
Arguments Raise {A} e.

Definition bind {A B : Type} (r : result A) (k : A -> result B) : result B :=
  match r with
  | Ok a => k a
  | Raise e => Raise e
  end.

Notation "x <- r ;; k" := (bind r (fun x => k))
  (at level 61, r at next level, right associativity).

(** Python [a / b] on two ints: true division, [ZeroDivisionError] when
    [b] is 0. *)
Definition int_truediv (a b : nat) : result float64 :=
  match b with
  | O => Raise ZeroDivisionError
  | S _ => Ok (Finite (INR a / INR b))
  end.

(** A Python number: an int (unbounded) or a float. *)
Inductive py_number : Type :=
| PyInt (z : Z)
| PyFloat (x : float64).

(** The least magnitude of an int that does not convert to a float: the
    conversion rounds to nearest, ties to even, so every int from half an
    ulp above the largest binary64 value rounds beyond the range. *)
Definition float_overflow_bound : Z := (2 ^ 1024 - 2 ^ 970)%Z.

(** Python [float(z)] for an int, as the arithmetic operators apply it to
    an int operand: [OverflowError] when the int is out of the range of
    binary64. *)
Definition float_of_int (z : Z) : result float64 :=
  if (Z.abs z <? float_overflow_bound)%Z then Ok (Finite (IZR z))
  else Raise OverflowError.

(** Python [a * b] for a number [a] and a float [b]: an int [a] is first
    converted to a float. *)
Definition number_times_float (a : py_number) (b : float64)
  : result float64 :=
  match a with
  | PyFloat x => Ok (mul x b)
  | PyInt z => x <- float_of_int z ;; Ok (mul x b)
  end.

(** ** pandas *)

Module Pd.

(** Index labels (dates) are kept abstract as numbers. *)
Definition date : Type := nat.

(** A Series: its values with their index labels, in order. *)
Definition Series : Type := list (date * float64).

(** A DataFrame of prices: the column labels (tickers) and the rows, each
    with its date; a row has one cell per column, NaN for a missing price. *)
Record DataFrame : Type := mkDataFrame {
  columns : list string;
  rows : list (date * list float64)
}.

(** Every row has one cell per column. *)
Definition well_formed (df : DataFrame) : Prop :=
  Forall (fun r => length (snd r) = length (columns df)) (rows df).

(** [df.shape[1]] *)
Definition shape1 (df : DataFrame) : nat := length (columns df).

(** [df.shape[0]] *)
Definition shape0 (df : DataFrame) : nat := length (rows df).

(** Cell by cell operation on two rows of cells. *)
Fixpoint map2 {A B C : Type} (f : A -> B -> C) (l : list A) (l' : list B)
  : list C :=
  match l, l' with
  | a :: t, b :: t' => f a b :: map2 f t t'
  | _, _ => []
  end.

(** The [fill_method] of [pct_change] when the caller gives none: [pad]
    (forward fill) up to pandas 2, [no_fill] from pandas 3. *)
Inductive fill_method : Type := pad | no_fill.

(** [df.ffill()]: a missing cell takes the last value seen in its column;
    leading missing cells stay missing. *)
Fixpoint ffill_from (prev : list float64) (rs : list (date * list float64))
  : list (date * list float64) :=
  match rs with
  | [] => []
  | (d, r) :: rest =>
      let r' := map2 (fun p c => if isnan c then p else c) prev r in
      (d, r') :: ffill_from r' rest
  end.

Definition ffill (rs : list (date * list float64))
  : list (date * list float64) :=
  match rs with
  | [] => []
  | (d, r) :: rest => (d, r) :: ffill_from r rest
  end.

(** [data / data.shift(1) - 1], row by row: [prev] is the shifted row. *)
Fixpoint pct_from (prev : list float64) (rs : list (date * list float64))
  : list (date * list float64) :=
  match rs with
  | [] => []
  | (d, r) :: rest =>
      (d, map2 (fun cur before => sub (div cur before) (Finite 1)) r prev)
        :: pct_from r rest
  end.

(** The rows after the filling step of [pct_change]. *)
Definition fill (fm : fill_method) (rs : list (date * list float64))
  : list (date * list float64) :=
  match fm with
  | pad => ffill rs
  | no_fill => rs
  end.

(** [df.pct_change()]: the shift leaves a row of NaN before the first row. *)
Definition pct_change (fm : fill_method) (df : DataFrame) : DataFrame :=
  let data := fill fm (rows df) in
  mkDataFrame (columns df) (pct_from (repeat NaN (shape1 df)) data).

(** A row is complete when none of its cells is NaN. *)
Definition complete (r : date * list float64) : bool :=
  negb (existsb isnan (snd r)).

(** [df.dropna()]: rows with at least one NaN cell are removed. *)
Definition dropna (df : DataFrame) : DataFrame :=
  mkDataFrame (columns df) (filter complete (rows df)).

(** One row times the weights: the sum of the products cell by weight. *)
Definition row_dot (weights : list float64) (r : date * list float64)
  : date * float64 :=
  (fst r, fold_left add (map2 mul (snd r) weights) (Finite 0)).

(** [df.dot(weights)] for a list of weights: one value per row;
    [ValueError] unless there is one weight per column. *)
Definition dot (df : DataFrame) (weights : list float64) : result Series :=
  if Nat.eqb (shape1 df) (length weights)
  then Ok (map (row_dot weights) (rows df))
  else Raise ValueError.

Definition values (s : Series) : list float64 := map snd s.

(** The values that [skipna=True] keeps. *)
Definition notna (vs : list float64) : list float64 :=
  filter (fun v => negb (isnan v)) vs.

Definition nansum (vs : list float64) : float64 :=
  fold_left add (notna vs) (Finite 0).

(** [s.mean()]: sum over count of the values that are not NaN, NaN when
    there is none. *)
Definition mean (s : Series) : float64 :=
  let n := length (notna (values s)) in
  match n with
  | O => NaN
  | S _ => div (nansum (values s)) (Finite (INR n))
  end.

(** [s.var(ddof)]: squared deviations from the mean over [count - ddof];
    NaN when [count <= ddof]. *)
Definition var (ddof : nat) (s : Series) : float64 :=
  let n := length (notna (values s)) in
  if Nat.leb n ddof then NaN
  else
    let avg := div (nansum (values s)) (Finite (INR n)) in
    let sqr := map (fun x => pow (sub avg x) 2) (notna (values s)) in
    div (fold_left add sqr (Finite 0)) (Finite (INR (n - ddof))).

(** [s.std()]: the default [ddof] is 1. *)
Definition std (s : Series) : float64 := sqrt (var 1 s).

(** [s.prod()]: NaN values count as 1; the empty product is 1. *)
Definition prod (s : Series) : float64 :=
  fold_left mul (notna (values s)) (Finite 1).

(** [s.min()]: least value that is not NaN, NaN when there is none. *)
Definition min (s : Series) : float64 :=
  match notna (values s) with
  | [] => NaN
  | v :: vs => fold_left minimum vs v
  end.

(** [s.cumprod()]: running product; a NaN entry stays NaN and is skipped. *)
Fixpoint cumprod_from (acc : float64) (s : Series) : Series :=
  match s with
  | [] => []
  | (d, v) :: rest =>
      if isnan v then (d, NaN) :: cumprod_from acc rest
      else (d, mul acc v) :: cumprod_from (mul acc v) rest
  end.

Definition cumprod (s : Series) : Series := cumprod_from (Finite 1) s.

(** [s.cummax()]: running maximum; a NaN entry stays NaN and is skipped. *)
Fixpoint cummax_from (acc : float64) (s : Series) : Series :=
  match s with
  | [] => []
  | (d, v) :: rest =>
      if isnan v then (d, NaN) :: cummax_from acc rest
      else (d, maximum acc v) :: cummax_from (maximum acc v) rest
  end.

Definition cummax (s : Series) : Series := cummax_from NegInf s.

(** [s + c] and [c + s] for a scalar [c]. *)
Definition series_add_scalar (s : Series) (c : float64) : Series :=
  map (fun e => (fst e, add (snd e) c)) s.

Definition scalar_add_series (c : float64) (s : Series) : Series :=
  map (fun e => (fst e, add c (snd e))) s.

(** [s1 - s2] and [s1 / s2] for two series on the same index. *)
Definition series_sub (s1 s2 : Series) : Series :=
  map2 (fun e1 e2 => (fst e1, sub (snd e1) (snd e2))) s1 s2.

Definition series_div (s1 s2 : Series) : Series :=
  map2 (fun e1 e2 => (fst e1, div (snd e1) (snd e2))) s1 s2.

End Pd.

Import Pd.

(** ** functions.py *)

(** [calcular_rentabilidad(precios_cierre, capital_inicial)].  [fm] is the
    default [fill_method] of the installed pandas. *)
Definition calcular_rentabilidad (fm : fill_method)
    (precios_cierre : DataFrame) (capital_inicial : py_number)
  : result Series :=
  let n_empresas := shape1 precios_cierre in
  peso_cartera <- int_truediv 1 n_empresas ;;
  inversion_por_empresa <-
    number_times_float capital_inicial peso_cartera ;;
  let rentabilidad_diaria := dropna (pct_change fm precios_cierre) in
  rentabilidad_cartera <-
    dot rentabilidad_diaria (repeat peso_cartera n_empresas) ;;
  Ok rentabilidad_cartera.

(** The one-row frame that [calcular_indicadores] returns. *)
Record Indicadores : Type := mkIndicadores {
  rentabilidad_anualizada : float64;
  volatilidad_anualizada : float64;
  ratio_de_sharpe : float64;
  retorno_acumulado : float64;
  maximo_drawdown : float64
}.

(** [calcular_indicadores(rentabilidad_cartera, dias_trading,
    rendimiento_sin_riesgo)]; [dias_trading] is a number of days. *)
Definition calcular_indicadores (rentabilidad_cartera : Series)
    (dias_trading : nat) (rendimiento_sin_riesgo : float64)
  : result Indicadores :=
  let rentabilidad_anualizada :=
    sub (pow (add (Finite 1) (mean rentabilidad_cartera)) dias_trading)
        (Finite 1) in
  let volatilidad_anualizada :=
    mul (std rentabilidad_cartera) (sqrt (Finite (INR dias_trading))) in
  let sharpe_ratio :=
    div (sub rentabilidad_anualizada rendimiento_sin_riesgo)
        volatilidad_anualizada in
  let retorno_acumulado :=
    sub (prod (series_add_scalar rentabilidad_cartera (Finite 1)))
        (Finite 1) in
  let wealth_index :=
    cumprod (scalar_add_series (Finite 1) rentabilidad_cartera) in
  let previous_peaks := cummax wealth_index in
  let drawdown :=
    series_div (series_sub wealth_index previous_peaks) previous_peaks in
  let max_drawdown := min drawdown in
  Ok (mkIndicadores rentabilidad_anualizada volatilidad_anualizada
        sharpe_ratio retorno_acumulado max_drawdown).

(** ** Statements of the specification *)

(** The trading days left after alignment: the complete rows, once
    [pct_change] has filled what its [fill_method] fills. *)
Definition aligned (fm : fill_method) (df : DataFrame)
  : list (date * list float64) :=
  filter complete (fill fm (rows df)).

(** A capital that the product of line 32 accepts: any float, or an int
    that converts to a float. *)
Definition representable (c : py_number) : Prop :=
  match c with
  | PyFloat _ => True
  | PyInt z => (Z.abs z < float_overflow_bound)%Z
  end.

(** A price: a positive real number. *)
Definition price (c : float64) : Prop := exists p, c = Finite p /\ 0 < p.

(** A table without missing values: every cell is a price. *)
Definition all_prices (df : DataFrame) : Prop :=
  Forall (fun r => Forall price (snd r)) (rows df).

(** No cell is missing. *)
Definition no_missing (df : DataFrame) : Prop :=
  Forall (fun r => existsb isnan (snd r) = false) (rows df).

(** The per-asset simple returns [price[t] / price[t-1] - 1] of one date. *)
Definition asset_returns (today yesterday : list float64) : list float64 :=
  map2 (fun p q => sub (div p q) (Finite 1)) today yesterday.

(** Arithmetic mean of the values of one date. *)
Definition arithmetic_mean (vs : list float64) : float64 :=
  div (fold_left add vs (Finite 0)) (Finite (INR (length vs))).

(** The mean of the per-asset returns at every date that has a previous
    date and whose per-asset returns are all defined. *)
Fixpoint mean_returns_from (yesterday : list float64)
    (rs : list (date * list float64)) : Series :=
  match rs with
  | [] => []
  | (d, today) :: rest =>
      let r := asset_returns today yesterday in
      if existsb isnan r then mean_returns_from today rest
      else (d, arithmetic_mean r) :: mean_returns_from today rest
  end.

Definition mean_returns (df : DataFrame) : Series :=
  match rows df with
  | [] => []
  | (_, first) :: rest => mean_returns_from first rest
  end.

(** The return series of one ticker on its own: the simple returns of its
    column, where defined. *)
Fixpoint own_returns_from (yesterday : float64) (ps : Series) : Series :=
  match ps with
  | [] => []
  | (d, today) :: rest =>
      let r := sub (div today yesterday) (Finite 1) in
      if isnan r then own_returns_from today rest
      else (d, r) :: own_returns_from today rest
  end.

Definition own_returns (ps : Series) : Series :=
  match ps with
  | [] => []
  | (_, first) :: rest => own_returns_from first rest
  end.

(** Column [j] of a table, as a series. *)
Definition column (j : nat) (df : DataFrame) : Series :=
  map (fun r => (fst r, nth j (snd r) NaN)) (rows df).

(** The table of the end-to-end scenario: AAA at 100, 102, 101 and BBB at
    50, 49, 50. *)
Definition scenario_table : DataFrame :=
  mkDataFrame ["AAA"%string; "BBB"%string]
    [(0%nat, [Finite 100; Finite 50]);
     (1%nat, [Finite 102; Finite 49]);
     (2%nat, [Finite 101; Finite 50])].

(** One ticker with a single trading day. *)
Definition one_day_table : DataFrame :=
  mkDataFrame ["AAA"%string] [(0%nat, [Finite 100])].

(** One ticker over three trading days. *)
Definition single_ticker_table : DataFrame :=
  mkDataFrame ["AAA"%string]
    [(0%nat, [Finite 100]); (1%nat, [Finite 102]); (2%nat, [Finite 101])].

(** A table with dates and no ticker at all. *)
Definition no_ticker_table : DataFrame :=
  mkDataFrame [] [(0%nat, []); (1%nat, [])].

(** The return series of the end-to-end scenario. *)
Definition scenario_series : Series :=
  [(1%nat, Finite 0); (2%nat, Finite (53 / 9996))].

Definition scenario_values : list R := [0; 53 / 9996].

(** Three days without any change of value. *)
Definition flat_series : Series :=
  [(1%nat, Finite 0); (2%nat, Finite 0); (3%nat, Finite 0)].

(** Sum, mean, product and sample standard deviation of real numbers. *)
Definition Rsum (xs : list R) : R := fold_left Rplus xs 0.

Definition Rmean (xs : list R) : R := Rsum xs / INR (length xs).

Definition Rprod (xs : list R) : R := fold_left Rmult xs 1.

Definition sample_stddev (xs : list R) : R :=
  R_sqrt.sqrt (Rsum (map (fun x => (x - Rmean xs) ^ 2) xs)
               / (INR (length xs) - 1)).

(** A series whose values are the real numbers [xs]. *)
Definition series_of (s : Series) (xs : list R) : Prop :=
  values s = map Finite xs.

(** ** The drawdown computation with its running state

    The wealth index, its running peak and the drawdown series of
    [calcular_indicadores], started from a wealth [accw] and a peak [accp]
    reached before the first entry of [growth] (the series [1 + r]). *)
Definition drawdown_from (accw accp : float64) (growth : Series) : Series :=
  let wealth_index := cumprod_from accw growth in
  let previous_peaks := cummax_from accp wealth_index in
  series_div (series_sub wealth_index previous_peaks) previous_peaks.

(** Every value of a series is a real number with property [P]. *)
Definition entries (P : R -> Prop) (s : Series) : Prop :=
  Forall (fun e => exists y, snd e = Finite y /\ P y) s.

(** The running peak before any wealth was seen, or a positive one. *)
Definition valid_peak (accp : float64) : Prop :=
  accp = NegInf \/ exists p, accp = Finite p /\ 0 < p.

(** A running peak that the current wealth [w] has reached. *)
Definition peak_at_most (accp : float64) (w : R) : Prop :=
  accp = NegInf \/ exists p, accp = Finite p /\ 0 < p /\ p <= w.

(** ** functions.py: the two charts

    matplotlib draws as a side effect: a chart function is modelled by the
    calls it makes on [plt], in order.  The data of a [plot] call is the list
    of the lines it draws (one for a series, one per column for a frame). *)

Inductive plt_call : Type :=
| plt_figure (width height : nat)
| plt_plot (lines : list Series) (label : string) (color : option string)
| plt_title (text : string)
| plt_xlabel (text : string)
| plt_ylabel (text : string)
| plt_legend (loc : option string)
| plt_grid (visible : bool)
| plt_show.

(** [graficar_rentabilidad_cartera(rentabilidad_cartera)] *)
Definition graficar_rentabilidad_cartera (rentabilidad_cartera : Series)
  : list plt_call :=
  [ plt_figure 10 6;
    plt_plot [cumprod (scalar_add_series (Finite 1) rentabilidad_cartera)]
      "Cartera" (Some "blue"%string);
    plt_title "Evolución de la Rentabilidad Acumulada de la Cartera";
    plt_xlabel "Fecha";
    plt_ylabel "Rentabilidad Acumulada";
    plt_legend None;
    plt_grid true;
    plt_show ].

(** The positions, counted from [j], of the columns labelled [label]. *)
Fixpoint positions (label : string) (cols : list string) (j : nat)
  : list nat :=
  match cols with
  | [] => []
  | c :: rest =>
      if String.eqb c label then j :: positions label rest (S j)
      else positions label rest (S j)
  end.

(** [df[label]]: every column that carries the label; [None] stands for the
    KeyError of a label that no column carries. *)
Definition getitem (df : DataFrame) (label : string)
  : option (list Series) :=
  match positions label (columns df) 0 with
  | [] => None
  | js => Some (map (fun j => column j df) js)
  end.

(** The loop [for empresa in precios_cierre.columns: plt.plot(...)]. *)
Fixpoint plot_columns (precios_cierre : DataFrame) (labels : list string)
  : option (list plt_call) :=
  match labels with
  | [] => Some []
  | empresa :: rest =>
      match getitem precios_cierre empresa with
      | None => None
      | Some lines =>
          match plot_columns precios_cierre rest with
          | None => None
          | Some calls => Some (plt_plot lines empresa None :: calls)
          end
      end
  end.

(** [graficar_precios_cierre(precios_cierre)] *)
Definition graficar_precios_cierre (precios_cierre : DataFrame)
  : option (list plt_call) :=
  match plot_columns precios_cierre (columns precios_cierre) with
  | None => None
  | Some calls =>
      Some ([plt_figure 10 6] ++ calls ++
            [ plt_title "Evolución de los Precios de las Acciones";
              plt_xlabel "Fecha";
              plt_ylabel "Precio de Cierre Ajustado";
              plt_legend (Some "best"%string);
              plt_grid true;
              plt_show ])
  end.

(** The lines that a list of [plt] calls draws, with their labels. *)
Fixpoint drawn_lines (calls : list plt_call) : list (string * Series) :=
  match calls with
  | [] => []
  | plt_plot lines label _ :: rest =>
      map (fun l => (label, l)) lines ++ drawn_lines rest
  | _ :: rest => drawn_lines rest
  end.

(** ** Further statements about tables and series *)

(** A cell of a price table: a price, or missing. *)
Definition price_or_missing (c : float64) : Prop := c = NaN \/ price c.

Definition valid_cells (df : DataFrame) : Prop :=
  Forall (fun r => Forall price_or_missing (snd r)) (rows df).

(** The dates whose row and whose previous row are both complete;
    [before] tells whether the row before the first of [rs] is complete. *)
Fixpoint complete_pair_dates (before : bool)
    (rs : list (date * list float64)) : list date :=
  match rs with
  | [] => []
  | r :: rest =>
      if before && complete r
      then fst r :: complete_pair_dates (complete r) rest
      else complete_pair_dates (complete r) rest
  end.

(** Every price of column [j] multiplied by the [j]-th factor of [ks]
    (another currency, a split adjustment). *)
Definition scale_row (ks : list R) (r : list float64) : list float64 :=
  map2 (fun c k => mul c (Finite k)) r ks.

Definition scale_rows (ks : list R) (rs : list (date * list float64))
  : list (date * list float64) :=
  map (fun r => (fst r, scale_row ks (snd r))) rs.

Definition scale_columns (ks : list R) (df : DataFrame) : DataFrame :=
  mkDataFrame (columns df) (scale_rows ks (rows df)).

(** The simple returns of the prices [ps] that follow the price [p]. *)
Fixpoint simple_returns (p : R) (ps : list R) : list R :=
  match ps with
  | [] => []
  | q :: rest => (q / p - 1) :: simple_returns q rest
  end.

(** A gain of one half and a loss of one half, in the two orders. *)
Definition gain_then_loss : Series :=
  [(1%nat, Finite (1 / 2)); (2%nat, Finite (- (1 / 2)))].

Definition loss_then_gain : Series :=
  [(1%nat, Finite (- (1 / 2))); (2%nat, Finite (1 / 2))].

Definition gain_then_loss_values : list R := [1 / 2; - (1 / 2)].

Definition loss_then_gain_values : list R := [- (1 / 2); 1 / 2].

(** Two tickers, AAA without a price on the second day. *)
Definition gappy_table : DataFrame :=
  mkDataFrame ["AAA"%string; "BBB"%string]
    [(0%nat, [Finite 100; Finite 50]);
     (1%nat, [NaN; Finite 49]);
     (2%nat, [Finite 101; Finite 50]);
     (3%nat, [Finite 102; Finite 51])].

(** Proves that a numeral cell is a price. *)
Ltac prove_price :=
  match goal with
  | |- price (Finite ?p) => exists p; split; [reflexivity | lra]
  end.

(** Proves that a cell is a price or missing. *)
Ltac prove_cell :=
  match goal with
  | |- price_or_missing NaN => left; reflexivity
  | |- price_or_missing (Finite _) => right; prove_price
  end.

(** ** Signs and arithmetic on finite values *)

Lemma Rsgn_pos (x : R) : 0 < x -> Rsgn x = Gt.
Proof.
  intros H. unfold Rsgn.
  destruct (total_order_T x 0) as [[H0 | H0] | H0]; try lra; reflexivity.
Qed.

Lemma Rsgn_neg (x : R) : x < 0 -> Rsgn x = Lt.
Proof.
  intros H. unfold Rsgn.
  destruct (total_order_T x 0) as [[H0 | H0] | H0]; try lra; reflexivity.
Qed.

Lemma Rsgn_zero : Rsgn 0 = Eq.
Proof.
  unfold Rsgn.
  destruct (total_order_T 0 0) as [[H0 | H0] | H0]; try lra; reflexivity.
Qed.

Lemma Rsgn_Eq (x : R) : Rsgn x = Eq -> x = 0.
Proof.
  unfold Rsgn.
  destruct (total_order_T x 0) as [[H0 | H0] | H0]; try discriminate; auto.
Qed.

Lemma Rsgn_Lt (x : R) : Rsgn x = Lt -> x < 0.
Proof.
  unfold Rsgn.
  destruct (total_order_T x 0) as [[H0 | H0] | H0]; try discriminate; auto.
Qed.

Lemma div_finite (x y : R) :
  y <> 0 -> div (Finite x) (Finite y) = Finite (x / y).
Proof.
  intros Hy. simpl. destruct (Rsgn y) eqn:E; try reflexivity.
  apply Rsgn_Eq in E. contradiction.
Qed.


Lemma add_zero_l (a : float64) : add (Finite 0) a = a.
Proof.
  destruct a as [x | | |]; simpl; try reflexivity.
  f_equal. lra.
Qed.

Lemma INR_S_pos (k : nat) : 0 < INR (S k).
Proof. apply lt_0_INR. lia. Qed.

(** Scaling by a positive finite weight distributes over a sum, special
    values included. *)
Lemma mul_add_distr_pos (a b : float64) (w : R) :
  0 < w ->
  mul (add a b) (Finite w) = add (mul a (Finite w)) (mul b (Finite w)).
Proof.
  intros Hw.
  destruct a as [x | | |], b as [y | | |]; simpl; unfold scale_inf;
    rewrite ?(Rsgn_pos w Hw); simpl; try reflexivity.
  f_equal. lra.
Qed.

Lemma div_as_mul_pos (a : float64) (m : R) :
  0 < m -> div a (Finite m) = mul a (Finite (1 / m)).
Proof.
  intros Hm.
  assert (Hi : 0 < 1 / m) by (apply Rdiv_lt_0_compat; lra).
  destruct a as [x | | |]; simpl; unfold scale_inf;
    rewrite ?(Rsgn_pos m Hm), ?(Rsgn_pos _ Hi); try reflexivity.
  f_equal. field. lra.
Qed.

(** ** Lists of cells *)

Lemma map2_length {A B C : Type} (f : A -> B -> C) (l : list A)
    (l' : list B) :
  length l = length l' -> length (map2 f l l') = length l.
Proof.
  revert l'. induction l as [| a t IH]; intros [| b t'] H; simpl in *;
    try discriminate; auto.
Qed.

(** ** calcular_rentabilidad: what is returned when there is a column *)

Lemma float_of_int_in_range (z : Z) :
  (Z.abs z < float_overflow_bound)%Z ->
  float_of_int z = Ok (Finite (IZR z)).
Proof.
  intros H. unfold float_of_int.
  apply Z.ltb_lt in H. rewrite H. reflexivity.
Qed.

Lemma float_of_int_overflow (z : Z) :
  ~ (Z.abs z < float_overflow_bound)%Z ->
  float_of_int z = Raise OverflowError.
Proof.
  intros H. unfold float_of_int.
  destruct (Z.ltb_spec (Z.abs z) float_overflow_bound) as [Hlt | Hge];
    [contradiction | reflexivity].
Qed.

Lemma representable_product (c : py_number) (w : float64) :
  representable c -> exists x, number_times_float c w = Ok x.
Proof.
  destruct c as [z | x]; intros H; simpl.
  - rewrite (float_of_int_in_range z H). eexists. reflexivity.
  - eexists. reflexivity.
Qed.

Lemma unrepresentable_product (c : py_number) (w : float64) :
  ~ representable c -> number_times_float c w = Raise OverflowError.
Proof.
  destruct c as [z | x]; intros H; simpl.
  - rewrite (float_of_int_overflow z H). reflexivity.
  - exfalso. apply H. exact I.
Qed.

Lemma calcular_rentabilidad_columns (fm : fill_method) (df : DataFrame)
    (cap : py_number) (k : nat) :
  shape1 df = S k -> representable cap ->
  calcular_rentabilidad fm df cap =
  Ok (map (row_dot (repeat (Finite (1 / INR (S k))) (S k)))
        (filter complete (pct_from (repeat NaN (S k)) (fill fm (rows df))))).
Proof.
  intros Hn Hcap. unfold calcular_rentabilidad. rewrite Hn.
  cbn [int_truediv bind].
  destruct (representable_product cap (Finite (INR 1 / INR (S k))) Hcap)
    as [x ->].
  unfold int_truediv, bind, dot, dropna, pct_change. cbn [rows columns].
  unfold shape1 at 1. cbn [columns]. fold (shape1 df). rewrite Hn.
  rewrite repeat_length, Nat.eqb_refl.
  change (INR 1) with 1. reflexivity.
Qed.

Lemma calcular_rentabilidad_no_column (fm : fill_method) (df : DataFrame)
    (cap : py_number) :
  shape1 df = 0%nat ->
  calcular_rentabilidad fm df cap = Raise ZeroDivisionError.
Proof.
  intros Hn. unfold calcular_rentabilidad. rewrite Hn. reflexivity.
Qed.

Lemma calcular_rentabilidad_overflow (fm : fill_method) (df : DataFrame)
    (cap : py_number) :
  (1 <= shape1 df)%nat -> ~ representable cap ->
  calcular_rentabilidad fm df cap = Raise OverflowError.
Proof.
  intros Hn Hcap. unfold calcular_rentabilidad.
  destruct (shape1 df) as [| k]; [lia |].
  cbn [int_truediv bind].
  rewrite (unrepresentable_product cap _ Hcap). reflexivity.
Qed.

Lemma representable_dec (c : py_number) :
  {representable c} + {~ representable c}.
Proof.
  destruct c as [z | x]; simpl; [apply Z_lt_dec | left; exact I].
Qed.

(** The default capital, the int 100000, and a float one. *)
Lemma default_capital_representable : representable (PyInt 100000).
Proof. reflexivity. Qed.

Lemma float_capital_representable (x : float64) : representable (PyFloat x).
Proof. exact I. Qed.

(** ** Missing cells through pct_change *)

Lemma pct_nan_yesterday (a : float64) :
  sub (div a NaN) (Finite 1) = NaN.
Proof. destruct a; reflexivity. Qed.

Lemma asset_returns_cons (a b : float64) (t t' : list float64) :
  asset_returns (a :: t) (b :: t') =
  sub (div a b) (Finite 1) :: asset_returns t t'.
Proof. reflexivity. Qed.

Lemma asset_returns_nan (today yesterday : list float64) :
  length today = length yesterday ->
  existsb isnan today || existsb isnan yesterday = true ->
  existsb isnan (asset_returns today yesterday) = true.
Proof.
  revert yesterday.
  induction today as [| a t IH]; intros [| b t'] Hlen H;
    try discriminate.
  rewrite asset_returns_cons. cbn [existsb] in *.
  destruct (isnan a) eqn:Ea.
  { destruct a; try discriminate. reflexivity. }
  destruct (isnan b) eqn:Eb.
  { destruct b; try discriminate. rewrite pct_nan_yesterday. reflexivity. }
  cbn [orb] in H. rewrite IH; auto using orb_true_r.
Qed.

Lemma asset_returns_repeat_nan (today : list float64) (k : nat) :
  length today = S k ->
  existsb isnan (asset_returns today (repeat NaN (S k))) = true.
Proof.
  intros Hlen. apply asset_returns_nan.
  - rewrite repeat_length. exact Hlen.
  - simpl. apply orb_true_r.
Qed.

Lemma pct_from_cons (prev r : list float64) (d : date)
    (rest : list (date * list float64)) :
  pct_from prev ((d, r) :: rest) =
  (d, asset_returns r prev) :: pct_from r rest.
Proof. reflexivity. Qed.

Lemma complete_row (d : date) (r : list float64) :
  complete (d, r) = negb (existsb isnan r).
Proof. reflexivity. Qed.

Lemma pct_from_length (prev : list float64)
    (rs : list (date * list float64)) :
  length (pct_from prev rs) = length rs.
Proof.
  revert prev. induction rs as [| [d r] rest IH]; intros prev; simpl; auto.
Qed.

Lemma pct_from_dates (prev : list float64)
    (rs : list (date * list float64)) :
  map fst (pct_from prev rs) = map fst rs.
Proof.
  revert prev. induction rs as [| [d r] rest IH]; intros prev; simpl;
    f_equal; auto.
Qed.

(** Filling keeps the shape of the rows. *)
Lemma ffill_from_shape (n : nat) (rs : list (date * list float64)) :
  forall prev, length prev = n ->
  Forall (fun r => length (snd r) = n) rs ->
  Forall (fun r => length (snd r) = n) (ffill_from prev rs).
Proof.
  induction rs as [| [d r] rest IH]; intros prev Hp Hrs; simpl.
  - constructor.
  - inversion Hrs as [| ? ? Hr Hrest]; subst. simpl in Hr.
    assert (Hl : length (map2 (fun p c => if isnan c then p else c) prev r)
                 = length r)
      by (rewrite map2_length; lia).
    constructor; [simpl; lia | apply IH; auto; lia].
Qed.

Lemma fill_shape (fm : fill_method) (n : nat)
    (rs : list (date * list float64)) :
  Forall (fun r => length (snd r) = n) rs ->
  Forall (fun r => length (snd r) = n) (fill fm rs).
Proof.
  intros H. destruct fm; simpl; auto.
  destruct rs as [| [d r] rest]; simpl; auto.
  inversion H; subst. constructor; auto.
  apply ffill_from_shape; auto.
Qed.

(** A date survives [dropna] only if it and the date before are complete:
    the surviving dates are at most the complete rows, less one when the
    shifted row has a missing cell. *)
Lemma survivors_bound (n : nat) (rs : list (date * list float64)) :
  forall prev, length prev = n ->
  Forall (fun r => length (snd r) = n) rs ->
  (length (filter complete (pct_from prev rs))
   <= length (filter complete rs)
      - (if existsb isnan prev then 1 else 0))%nat.
Proof.
  induction rs as [| [d r] rest IH]; intros prev Hp Hrs.
  - simpl. lia.
  - inversion Hrs as [| ? ? Hr Hrest]; subst. simpl in Hr.
    specialize (IH r Hr Hrest).
    rewrite pct_from_cons. cbn [filter]. rewrite !complete_row.
    destruct (existsb isnan r) eqn:Er.
    + rewrite asset_returns_nan; [| lia | rewrite Er; reflexivity].
      simpl. destruct (existsb isnan prev); lia.
    + destruct (existsb isnan prev) eqn:Ep.
      * rewrite asset_returns_nan; [| lia | rewrite Ep; apply orb_true_r].
        simpl. lia.
      * destruct (existsb isnan (asset_returns r prev)); simpl; lia.
Qed.

(** ** Tables without missing values *)

Lemma price_not_nan (c : float64) : price c -> isnan c = false.
Proof. intros [p [-> _]]. reflexivity. Qed.

Lemma prices_no_nan (r : list float64) :
  Forall price r -> existsb isnan r = false.
Proof.
  induction 1 as [| c t Hc _ IH]; simpl; auto.
  rewrite (price_not_nan c Hc). exact IH.
Qed.

Lemma all_prices_no_missing (df : DataFrame) :
  all_prices df -> no_missing df.
Proof.
  unfold all_prices, no_missing. intros H.
  eapply Forall_impl; [| exact H]. intros r. apply prices_no_nan.
Qed.

Lemma ffill_row_id (prev r : list float64) :
  length prev = length r -> existsb isnan r = false ->
  map2 (fun p c => if isnan c then p else c) prev r = r.
Proof.
  revert r. induction prev as [| p t IH]; intros [| c t'] Hl Hn;
    simpl in *; try discriminate; auto.
  apply orb_false_iff in Hn as [Hc Ht]. rewrite Hc. f_equal.
  apply IH; auto.
Qed.

Lemma ffill_from_id (n : nat) (rs : list (date * list float64)) :
  forall prev, length prev = n ->
  Forall (fun r => length (snd r) = n) rs ->
  Forall (fun r => existsb isnan (snd r) = false) rs ->
  ffill_from prev rs = rs.
Proof.
  induction rs as [| [d r] rest IH]; intros prev Hp Hs Hn; simpl; auto.
  inversion Hs; inversion Hn; subst. simpl in *.
  rewrite ffill_row_id by (auto; lia). f_equal. apply IH; auto.
Qed.

Lemma fill_id (fm : fill_method) (df : DataFrame) :
  well_formed df -> no_missing df -> fill fm (rows df) = rows df.
Proof.
  unfold well_formed, no_missing. intros Hs Hn.
  destruct fm; simpl; auto.
  destruct (rows df) as [| [d r] rest]; simpl; auto.
  inversion Hs; inversion Hn; subst. f_equal.
  eapply ffill_from_id; eauto.
Qed.

Lemma pct_price (a b : float64) :
  price a -> price b -> isnan (sub (div a b) (Finite 1)) = false.
Proof.
  intros [p [-> Hp]] [q [-> Hq]]. rewrite div_finite by lra. reflexivity.
Qed.

Lemma asset_returns_prices (today yesterday : list float64) :
  Forall price today -> Forall price yesterday ->
  existsb isnan (asset_returns today yesterday) = false.
Proof.
  intros Ht. revert yesterday.
  induction Ht as [| a t Ha _ IH]; intros yesterday Hy; simpl; auto.
  destruct Hy as [| b t' Hb Hy']; simpl; auto.
  fold (asset_returns t t'). rewrite (pct_price a b Ha Hb). simpl.
  apply IH; auto.
Qed.

Lemma pct_from_prices_complete (rs : list (date * list float64)) :
  forall prev, Forall price prev ->
  Forall (fun r => Forall price (snd r)) rs ->
  filter complete (pct_from prev rs) = pct_from prev rs.
Proof.
  induction rs as [| [d r] rest IH]; intros prev Hp Hrs; auto.
  inversion Hrs as [| ? ? Hr Hrest]; subst. simpl in Hr.
  rewrite pct_from_cons. cbn [filter]. rewrite complete_row.
  rewrite asset_returns_prices by auto. simpl. f_equal. apply IH; auto.
Qed.

(** ** calcular_rentabilidad on a table without missing values *)

Lemma row_dot_dates (ws : list float64) (rs : list (date * list float64)) :
  map fst (map (row_dot ws) rs) = map fst rs.
Proof. rewrite map_map. apply map_ext. reflexivity. Qed.

Lemma calcular_rentabilidad_no_missing (fm : fill_method) (df : DataFrame)
    (cap : py_number) (k : nat) (d0 : date) (r0 : list float64)
    (rest : list (date * list float64)) :
  representable cap ->
  well_formed df -> no_missing df -> shape1 df = S k ->
  rows df = (d0, r0) :: rest ->
  calcular_rentabilidad fm df cap =
  Ok (map (row_dot (repeat (Finite (1 / INR (S k))) (S k)))
        (filter complete (pct_from r0 rest))).
Proof.
  intros Hcap Hwf Hnm Hk Hrows.
  rewrite (calcular_rentabilidad_columns fm df cap k Hk Hcap).
  rewrite (fill_id fm df Hwf Hnm), Hrows, pct_from_cons.
  cbn [filter]. rewrite complete_row.
  rewrite asset_returns_repeat_nan; [reflexivity |].
  unfold well_formed in Hwf. rewrite Hrows in Hwf.
  inversion Hwf as [| ? ? Hr _]; subst. simpl in Hr.
  unfold shape1 in Hk. lia.
Qed.

Lemma ffill_from_length (rs : list (date * list float64)) :
  forall prev, length (ffill_from prev rs) = length rs.
Proof.
  induction rs as [| [d r] rest IH]; intros prev; simpl; auto.
Qed.

(** A table with fewer than two rows has fewer than two trading days. *)
Lemma aligned_le_rows (fm : fill_method) (df : DataFrame) :
  (length (aligned fm df) <= shape0 df)%nat.
Proof.
  unfold aligned, shape0.
  etransitivity; [apply filter_length_le |].
  destruct fm; simpl; auto.
  destruct (rows df) as [| [d r] rest]; simpl; auto.
  rewrite ffill_from_length. lia.
Qed.

(** C10 (as amended): for every price table with at least one column, any
    two values of [capital_inicial] that the product of line 32 accepts
    (every float, every int that converts to a float) give the same return
    series: among them the initial capital has no effect on what is
    returned.  An int too large to convert to a float is not accepted: the
    product raises [OverflowError] and no series is returned. *)
Theorem capital_inicial_matters_only_by_overflow (fm : fill_method)
    (df : DataFrame) (c1 c2 c3 : py_number) :
  (1 <= shape1 df)%nat ->
  representable c1 -> representable c2 -> ~ representable c3 ->
  (exists s : Series,
     calcular_rentabilidad fm df c1 = Ok s /\
     calcular_rentabilidad fm df c2 = Ok s) /\
  calcular_rentabilidad fm df c3 = Raise OverflowError.
Proof.
  intros Hn H1 H2 H3. split.
  - destruct (shape1 df) as [| k] eqn:Hk; [lia |].
    eexists. split; apply (calcular_rentabilidad_columns fm df _ k Hk);
      assumption.
  - apply calcular_rentabilidad_overflow; assumption.
Qed.

Lemma huge_int_not_representable : ~ representable (PyInt (10 ^ 400)).
Proof. unfold representable. vm_compute. intros H. discriminate H. Qed.

Lemma scenario_table_columns : (1 <= shape1 scenario_table)%nat.
Proof. unfold shape1, scenario_table; simpl; lia. Qed.

Lemma capital_inicial_matters_only_by_overflow_witness :
  (1 <= shape1 scenario_table)%nat /\
  representable (PyInt 100000) /\
  representable (PyFloat (Finite 5)) /\
  ~ representable (PyInt (10 ^ 400)) /\
  (exists s : Series,
     calcular_rentabilidad pad scenario_table (PyInt 100000) = Ok s /\
     calcular_rentabilidad pad scenario_table (PyFloat (Finite 5)) = Ok s) /\
  calcular_rentabilidad pad scenario_table (PyInt (10 ^ 400))
  = Raise OverflowError.
Proof.
  split; [exact scenario_table_columns |].
  split; [exact default_capital_representable |].
  split; [exact (float_capital_representable (Finite 5)) |].
  split; [exact huge_int_not_representable |].
  exact (capital_inicial_matters_only_by_overflow pad scenario_table
           (PyInt 100000) (PyFloat (Finite 5)) (PyInt (10 ^ 400))
           scenario_table_columns default_capital_representable
           (float_capital_representable (Finite 5))
           huge_int_not_representable).
Defined.

(** C10, the claim as stated fails: on the scenario table a capital of 5
    returns a series, while the int 10^400 makes the product of line 32
    raise [OverflowError]: the two values do not give identical results. *)
Lemma huge_capital_changes_the_outcome :
  (1 <= shape1 scenario_table)%nat /\
  (exists s : Series,
     calcular_rentabilidad pad scenario_table (PyInt 5) = Ok s) /\
  calcular_rentabilidad pad scenario_table (PyInt (10 ^ 400))
  = Raise OverflowError.
Proof.
  split; [exact scenario_table_columns |]. split.
  - eexists.
    apply (calcular_rentabilidad_columns pad scenario_table (PyInt 5) 1
             eq_refl).
    reflexivity.
  - apply calcular_rentabilidad_overflow;
      [exact scenario_table_columns | exact huge_int_not_representable].
Qed.

(** C5 (as amended): for every price table with zero columns,
    [calcular_rentabilidad] has no shape check before the equal-weight
    division: it evaluates [1 / n_empresas] with [n_empresas = 0], and the
    [ZeroDivisionError] of that division is the failure the caller sees. *)
Theorem zero_columns_fail_in_division (fm : fill_method) (df : DataFrame)
    (cap : py_number) :
  shape1 df = 0%nat ->
  int_truediv 1 (shape1 df) = Raise ZeroDivisionError /\
  calcular_rentabilidad fm df cap = Raise ZeroDivisionError.
Proof.
  intros Hn. split.
  - rewrite Hn. reflexivity.
  - apply calcular_rentabilidad_no_column. exact Hn.
Qed.

Lemma zero_columns_fail_in_division_witness :
  shape1 no_ticker_table = 0%nat /\
  int_truediv 1 (shape1 no_ticker_table) = Raise ZeroDivisionError /\
  calcular_rentabilidad pad no_ticker_table (PyInt 100000)
  = Raise ZeroDivisionError.
Proof.
  split; [reflexivity |].
  apply (zero_columns_fail_in_division pad no_ticker_table). reflexivity.
Defined.

(** C5, the claim as stated fails: on a table with no ticker the failure is
    not a shape rejection made before the division, it is the
    [ZeroDivisionError] of the division [1 / n_empresas] itself. *)
Lemma zero_columns_not_rejected_before_division :
  shape1 no_ticker_table = 0%nat /\
  int_truediv 1 (shape1 no_ticker_table) = Raise ZeroDivisionError /\
  calcular_rentabilidad pad no_ticker_table (PyInt 100000)
  = Raise ZeroDivisionError /\
  calcular_rentabilidad pad no_ticker_table (PyInt 100000)
  <> Raise ValueError.
Proof.
  repeat split; try reflexivity.
  rewrite calcular_rentabilidad_no_column by reflexivity. discriminate.
Qed.

(** C4 (as amended): for every price table with at least one column that
    leaves fewer than two trading days after alignment,
    [calcular_rentabilidad] raises nothing and returns the empty return
    series. *)
Theorem degenerate_table_gives_empty_series (fm : fill_method)
    (df : DataFrame) (cap : py_number) :
  representable cap ->
  well_formed df -> (1 <= shape1 df)%nat ->
  (length (aligned fm df) < 2)%nat ->
  calcular_rentabilidad fm df cap = Ok [].
Proof.
  intros Hcap Hwf Hn Hal.
  destruct (shape1 df) as [| k] eqn:Hk; [lia |].
  rewrite (calcular_rentabilidad_columns fm df cap k Hk Hcap).
  assert (Hwf' : Forall (fun r => length (snd r) = S k) (rows df))
    by (unfold well_formed in Hwf; unfold shape1 in Hk;
        rewrite Hk in Hwf; exact Hwf).
  assert (Hb := survivors_bound (S k) (fill fm (rows df))
                  (repeat NaN (S k)) (repeat_length _ _)
                  (fill_shape fm (S k) (rows df) Hwf')).
  fold (aligned fm df) in Hb.
  change (existsb isnan (repeat NaN (S k))) with true in Hb.
  destruct (filter complete
              (pct_from (repeat NaN (S k)) (fill fm (rows df))))
    as [| x l]; [reflexivity | simpl in Hb; lia].
Qed.

Lemma degenerate_table_gives_empty_series_witness :
  representable (PyInt 100000) /\
  well_formed one_day_table /\ (1 <= shape1 one_day_table)%nat /\
  (length (aligned pad one_day_table) < 2)%nat /\
  calcular_rentabilidad pad one_day_table (PyInt 100000) = Ok [].
Proof.
  assert (Hwf : well_formed one_day_table)
    by (repeat constructor).
  assert (Hn : (1 <= shape1 one_day_table)%nat)
    by (unfold shape1, one_day_table; simpl; lia).
  assert (Hal : (length (aligned pad one_day_table) < 2)%nat)
    by (unfold aligned, one_day_table; simpl; lia).
  split; [exact default_capital_representable |].
  split; [exact Hwf |]. split; [exact Hn |]. split; [exact Hal |].
  exact (degenerate_table_gives_empty_series pad one_day_table
           (PyInt 100000) default_capital_representable Hwf Hn Hal).
Defined.

(** C4, the claim as stated fails: a table with a single trading day is
    not rejected, the call returns the empty series. *)
Lemma single_day_returns_empty_series :
  shape0 one_day_table = 1%nat /\
  length (aligned pad one_day_table) = 1%nat /\
  length (aligned no_fill one_day_table) = 1%nat /\
  calcular_rentabilidad pad one_day_table (PyInt 100000) = Ok [] /\
  calcular_rentabilidad no_fill one_day_table (PyInt 100000) = Ok [].
Proof.
  repeat split;
    rewrite (calcular_rentabilidad_columns _ one_day_table _ 0%nat eq_refl
               default_capital_representable);
    reflexivity.
Qed.

(** C3: for every price table with N >= 2 rows, M >= 1 columns and no
    missing value (every cell a price), [calcular_rentabilidad] returns a
    series of exactly N - 1 entries, whose dates are the dates of the table
    without the first. *)
Theorem return_series_drops_first_date (fm : fill_method) (df : DataFrame)
    (cap : py_number) :
  representable cap ->
  well_formed df -> all_prices df ->
  (1 <= shape1 df)%nat -> (2 <= shape0 df)%nat ->
  exists s : Series,
    calcular_rentabilidad fm df cap = Ok s /\
    length s = (shape0 df - 1)%nat /\
    map fst s = tl (map fst (rows df)).
Proof.
  intros Hcap Hwf Hp Hn Hrows.
  destruct (shape1 df) as [| k] eqn:Hk; [lia |].
  unfold shape0 in *.
  destruct (rows df) as [| [d0 r0] rest] eqn:Hr; [simpl in Hrows; lia |].
  eexists. split.
  - apply (calcular_rentabilidad_no_missing fm df cap k d0 r0 rest); auto.
    apply all_prices_no_missing; exact Hp.
  - unfold all_prices in Hp. rewrite Hr in Hp.
    inversion Hp as [| ? ? Hp0 Hprest]; subst.
    rewrite pct_from_prices_complete by auto.
    split.
    + rewrite length_map, pct_from_length. simpl. lia.
    + rewrite row_dot_dates, pct_from_dates. reflexivity.
Qed.

Lemma scenario_table_well_formed : well_formed scenario_table.
Proof. repeat constructor. Qed.

Lemma scenario_table_all_prices : all_prices scenario_table.
Proof.
  unfold all_prices, scenario_table; cbn [rows].
  repeat (constructor; cbn [snd]); prove_price.
Qed.

Lemma return_series_drops_first_date_witness :
  representable (PyInt 100000) /\
  well_formed scenario_table /\ all_prices scenario_table /\
  (1 <= shape1 scenario_table)%nat /\ (2 <= shape0 scenario_table)%nat /\
  exists s : Series,
    calcular_rentabilidad pad scenario_table (PyInt 100000) = Ok s /\
    length s = (shape0 scenario_table - 1)%nat /\
    map fst s = tl (map fst (rows scenario_table)).
Proof.
  assert (H1 : (1 <= shape1 scenario_table)%nat)
    by (unfold shape1, scenario_table; simpl; lia).
  assert (H2 : (2 <= shape0 scenario_table)%nat)
    by (unfold shape0, scenario_table; simpl; lia).
  split; [exact default_capital_representable |].
  split; [exact scenario_table_well_formed |].
  split; [exact scenario_table_all_prices |].
  split; [exact H1 |]. split; [exact H2 |].
  exact (return_series_drops_first_date pad scenario_table (PyInt 100000)
           default_capital_representable
           scenario_table_well_formed scenario_table_all_prices H1 H2).
Defined.

(** ** Equal weights: the weighted sum of a row is its arithmetic mean *)

Lemma fold_add_scaled (w : R) (r : list float64) :
  0 < w -> forall (n : nat) (acc : float64), length r = n ->
  fold_left add (map2 mul r (repeat (Finite w) n)) (mul acc (Finite w))
  = mul (fold_left add r acc) (Finite w).
Proof.
  intros Hw. induction r as [| a t IH]; intros n acc Hlen.
  - reflexivity.
  - destruct n as [| m]; [discriminate |].
    cbn [repeat map2 fold_left].
    rewrite <- mul_add_distr_pos by exact Hw.
    apply IH. simpl in Hlen. lia.
Qed.

Lemma row_dot_equal_weights (k : nat) (d : date) (r : list float64) :
  length r = S k ->
  row_dot (repeat (Finite (1 / INR (S k))) (S k)) (d, r)
  = (d, arithmetic_mean r).
Proof.
  intros Hlen. unfold row_dot, arithmetic_mean. cbn [fst snd]. f_equal.
  assert (Hm := INR_S_pos k).
  assert (Hw : 0 < 1 / INR (S k)) by (apply Rdiv_lt_0_compat; lra).
  rewrite Hlen, (div_as_mul_pos _ _ Hm).
  rewrite <- (fold_add_scaled _ r Hw (S k) (Finite 0) Hlen).
  f_equal. simpl. f_equal. lra.
Qed.

Lemma asset_returns_length (today yesterday : list float64) :
  length today = length yesterday ->
  length (asset_returns today yesterday) = length today.
Proof. apply map2_length. Qed.

Lemma equal_weight_rows (k : nat) (rs : list (date * list float64)) :
  forall prev, length prev = S k ->
  Forall (fun r => length (snd r) = S k) rs ->
  map (row_dot (repeat (Finite (1 / INR (S k))) (S k)))
      (filter complete (pct_from prev rs))
  = mean_returns_from prev rs.
Proof.
  induction rs as [| [d r] rest IH]; intros prev Hp Hrs.
  - reflexivity.
  - inversion Hrs as [| ? ? Hr Hrest]; subst. simpl in Hr.
    rewrite pct_from_cons. cbn [filter mean_returns_from].
    rewrite complete_row.
    destruct (existsb isnan (asset_returns r prev)); cbn [negb].
    + apply IH; auto.
    + cbn [map]. rewrite row_dot_equal_weights
        by (rewrite asset_returns_length; lia).
      f_equal. apply IH; auto.
Qed.

(** With a single ticker the mean over the row is the ticker's return. *)
Lemma arithmetic_mean_single (a : float64) : arithmetic_mean [a] = a.
Proof.
  unfold arithmetic_mean. cbn [fold_left length].
  rewrite add_zero_l. change (INR 1) with 1.
  destruct a as [x | | |]; simpl; rewrite ?(Rsgn_pos 1 Rlt_0_1);
    try reflexivity.
  f_equal. field.
Qed.

Lemma single_column_rows (rs : list (date * list float64)) :
  forall y, Forall (fun r => length (snd r) = 1%nat) rs ->
  mean_returns_from [y] rs
  = own_returns_from y (map (fun r => (fst r, nth 0 (snd r) NaN)) rs).
Proof.
  induction rs as [| [d r] rest IH]; intros y Hrs.
  - reflexivity.
  - inversion Hrs as [| ? ? Hr Hrest]; subst. simpl in Hr.
    destruct r as [| c [| c' t]]; try discriminate.
    cbn [mean_returns_from map own_returns_from fst snd nth].
    rewrite asset_returns_cons. cbn [asset_returns map2 existsb].
    rewrite orb_false_r, arithmetic_mean_single.
    destruct (isnan (sub (div c y) (Finite 1))); [| f_equal]; apply IH; auto.
Qed.

(** C2: for every price table with M >= 1 ticker columns and no missing
    value, the series returned by [calcular_rentabilidad] holds, at every
    surviving date, the arithmetic mean of the M per-asset simple returns
    [price[t] / price[t-1] - 1] of that date; with one ticker it is that
    ticker's own return series. *)
Theorem portfolio_return_is_mean_of_asset_returns (fm : fill_method)
    (df : DataFrame) (cap : py_number) :
  representable cap ->
  well_formed df -> no_missing df -> (1 <= shape1 df)%nat ->
  calcular_rentabilidad fm df cap = Ok (mean_returns df) /\
  (shape1 df = 1%nat ->
   calcular_rentabilidad fm df cap = Ok (own_returns (column 0 df))).
Proof.
  intros Hcap Hwf Hnm Hn.
  destruct (shape1 df) as [| k] eqn:Hk; [lia |].
  assert (Hwf' : Forall (fun r => length (snd r) = S k) (rows df))
    by (unfold well_formed in Hwf; unfold shape1 in Hk;
        rewrite Hk in Hwf; exact Hwf).
  assert (Hmean : calcular_rentabilidad fm df cap = Ok (mean_returns df)).
  { unfold mean_returns.
    destruct (rows df) as [| [d0 r0] rest] eqn:Hr.
    - rewrite (calcular_rentabilidad_columns fm df cap k Hk Hcap).
      rewrite (fill_id fm df Hwf Hnm), Hr. reflexivity.
    - rewrite (calcular_rentabilidad_no_missing fm df cap k d0 r0 rest)
        by auto.
      inversion Hwf' as [| ? ? Hr0 Hrest]; subst. simpl in Hr0.
      rewrite equal_weight_rows by auto. reflexivity. }
  split; [exact Hmean |].
  intros Hone. rewrite Hmean. f_equal.
  assert (k = 0%nat) by lia. subst k.
  unfold mean_returns, column, own_returns.
  destruct (rows df) as [| [d0 r0] rest]; [reflexivity |].
  inversion Hwf' as [| ? ? Hr0 Hrest]; subst. simpl in Hr0.
  destruct r0 as [| c [| c' t]]; try discriminate.
  cbn [map fst snd nth]. apply single_column_rows. exact Hrest.
Qed.

Lemma portfolio_return_is_mean_of_asset_returns_witness :
  representable (PyInt 100000) /\
  well_formed single_ticker_table /\ no_missing single_ticker_table /\
  (1 <= shape1 single_ticker_table)%nat /\
  calcular_rentabilidad pad single_ticker_table (PyInt 100000)
  = Ok (mean_returns single_ticker_table) /\
  (shape1 single_ticker_table = 1%nat ->
   calcular_rentabilidad pad single_ticker_table (PyInt 100000)
   = Ok (own_returns (column 0 single_ticker_table))).
Proof.
  assert (Hwf : well_formed single_ticker_table) by (repeat constructor).
  assert (Hnm : no_missing single_ticker_table) by (repeat constructor).
  assert (Hn : (1 <= shape1 single_ticker_table)%nat)
    by (unfold shape1, single_ticker_table; simpl; lia).
  split; [exact default_capital_representable |].
  split; [exact Hwf |]. split; [exact Hnm |]. split; [exact Hn |].
  exact (portfolio_return_is_mean_of_asset_returns pad single_ticker_table
           (PyInt 100000) default_capital_representable Hwf Hnm Hn).
Defined.

(** The hand-built scenario of the specification: the portfolio returns of
    AAA at 100, 102, 101 and BBB at 50, 49, 50 are 0 and 53/9996 (0.0053). *)
Example scenario_returns :
  calcular_rentabilidad pad scenario_table (PyInt 100000)
  = Ok [(1%nat, Finite 0); (2%nat, Finite (53 / 9996))].
Proof.
  rewrite (calcular_rentabilidad_no_missing pad scenario_table _ 1%nat
             0%nat [Finite 100; Finite 50]
             [(1%nat, [Finite 102; Finite 49]);
              (2%nat, [Finite 101; Finite 50])]
             default_capital_representable
             scenario_table_well_formed
             (all_prices_no_missing _ scenario_table_all_prices)
             eq_refl eq_refl).
  rewrite (equal_weight_rows 1) by (repeat constructor).
  cbn [mean_returns_from]. rewrite !asset_returns_cons.
  cbn [asset_returns map2]. rewrite !div_finite by lra.
  cbn [sub opp add existsb isnan orb]. unfold arithmetic_mean.
  cbn [fold_left length add INR]. rewrite !div_finite by lra.
  apply f_equal.
  repeat (apply f_equal2; [do 2 apply f_equal; lra |]).
  reflexivity.
Qed.

(** ** Series of finite values *)

Lemma notna_finite (xs : list R) : notna (map Finite xs) = map Finite xs.
Proof.
  unfold notna. induction xs as [| x t IH]; simpl; [| rewrite IH];
    reflexivity.
Qed.

Lemma fold_add_finite (xs : list R) :
  forall a, fold_left add (map Finite xs) (Finite a)
            = Finite (fold_left Rplus xs a).
Proof. induction xs as [| x t IH]; intros a; simpl; auto. Qed.

Lemma fold_mul_finite (xs : list R) :
  forall a, fold_left mul (map Finite xs) (Finite a)
            = Finite (fold_left Rmult xs a).
Proof. induction xs as [| x t IH]; intros a; simpl; auto. Qed.

Lemma pow_finite (x : R) (n : nat) : pow (Finite x) n = Finite (x ^ n).
Proof.
  induction n as [| k IH]; simpl; [| rewrite IH]; reflexivity.
Qed.

Lemma sqrt_finite (x : R) :
  0 <= x -> sqrt (Finite x) = Finite (R_sqrt.sqrt x).
Proof.
  intros Hx. simpl. destruct (Rsgn x) eqn:E; try reflexivity.
  apply Rsgn_Lt in E. lra.
Qed.

Lemma nansum_finite (s : Series) (xs : list R) :
  series_of s xs -> nansum (values s) = Finite (Rsum xs).
Proof.
  unfold series_of, nansum, Rsum. intros ->.
  rewrite notna_finite. apply fold_add_finite.
Qed.

Lemma count_finite (s : Series) (xs : list R) :
  series_of s xs -> length (notna (values s)) = length xs.
Proof.
  unfold series_of. intros ->. rewrite notna_finite. apply length_map.
Qed.

Lemma mean_finite (s : Series) (xs : list R) :
  series_of s xs -> xs <> [] -> mean s = Finite (Rmean xs).
Proof.
  intros Hs Hne. unfold mean, Rmean.
  rewrite (count_finite s xs Hs), (nansum_finite s xs Hs).
  destruct xs as [| x t]; [contradiction |].
  cbn [length]. apply div_finite.
  assert (H := INR_S_pos (length t)). lra.
Qed.

Lemma series_add_scalar_finite (s : Series) (xs : list R) (c : R) :
  series_of s xs ->
  series_of (series_add_scalar s (Finite c)) (map (fun x => x + c) xs).
Proof.
  unfold series_of, values, series_add_scalar. revert xs.
  induction s as [| [d v] rest IH]; intros [| x t] H; simpl in *;
    try discriminate; auto.
  injection H as -> Hrest. f_equal. apply IH. exact Hrest.
Qed.

Lemma prod_finite (s : Series) (xs : list R) :
  series_of s xs -> prod s = Finite (Rprod xs).
Proof.
  unfold series_of, prod, Rprod. intros ->.
  rewrite notna_finite. apply fold_mul_finite.
Qed.

(** ** Sums of real numbers *)

Lemma fold_Rplus_shift (xs : list R) :
  forall a, fold_left Rplus xs a = a + fold_left Rplus xs 0.
Proof.
  induction xs as [| x t IH]; intros a; simpl; [lra |].
  rewrite (IH (a + x)), (IH (0 + x)). lra.
Qed.

Lemma Rsum_cons (x : R) (xs : list R) : Rsum (x :: xs) = x + Rsum xs.
Proof.
  unfold Rsum. simpl. rewrite fold_Rplus_shift. lra.
Qed.

Lemma Rsum_squares_nonneg (f : R -> R) (xs : list R) :
  0 <= Rsum (map (fun x => f x ^ 2) xs).
Proof.
  induction xs as [| x t IH]; [unfold Rsum; simpl; lra |].
  cbn [map]. rewrite Rsum_cons.
  assert (H := pow2_ge_0 (f x)). lra.
Qed.


Lemma Rsum_constant (c : R) (xs : list R) :
  Forall (fun x => x = c) xs -> Rsum xs = INR (length xs) * c.
Proof.
  induction 1 as [| x t Hx _ IH]; [unfold Rsum; simpl; lra |].
  rewrite Rsum_cons. cbn [length]. rewrite S_INR. lra.
Qed.

Lemma Rmean_constant (c : R) (xs : list R) :
  xs <> [] -> Forall (fun x => x = c) xs -> Rmean xs = c.
Proof.
  intros Hne Hc. unfold Rmean. rewrite (Rsum_constant c xs Hc).
  destruct xs as [| x t]; [contradiction |].
  assert (H := INR_S_pos (length t)).
  change (length (x :: t)) with (S (length t)).
  generalize dependent (INR (S (length t))). intros n Hn. field. lra.
Qed.

Lemma Rprod_all_one (xs : list R) :
  Forall (fun x => x = 1) xs -> Rprod xs = 1.
Proof.
  unfold Rprod. generalize 1 at 2 3 as acc.
  induction 1 as [| x t Hx _ IH]; intros; simpl; [reflexivity |].
  subst x. rewrite Rmult_1_r. apply IH.
Qed.

(** ** Variance and standard deviation of finite values *)

Lemma squared_deviations_finite (a : R) (xs : list R) :
  map (fun x => pow (sub (Finite a) x) 2) (map Finite xs)
  = map Finite (map (fun x => (a - x) ^ 2) xs).
Proof.
  induction xs as [| x t IH]; [reflexivity |].
  cbn [map]. rewrite IH. reflexivity.
Qed.

Lemma var_finite (s : Series) (xs : list R) :
  series_of s xs -> (2 <= length xs)%nat ->
  var 1 s = Finite (Rsum (map (fun x => (Rmean xs - x) ^ 2) xs)
                    / (INR (length xs) - 1)).
Proof.
  intros Hs Hlen. unfold var.
  rewrite (count_finite s xs Hs), (nansum_finite s xs Hs).
  destruct (Nat.leb (length xs) 1) eqn:E;
    [apply Nat.leb_le in E; lia |].
  assert (Hn : 0 < INR (length xs)) by (apply lt_0_INR; lia).
  rewrite div_finite by lra. fold (Rmean xs).
  unfold series_of in Hs. rewrite Hs, notna_finite.
  rewrite squared_deviations_finite, fold_add_finite.
  fold (Rsum (map (fun x => (Rmean xs - x) ^ 2) xs)).
  assert (H1 : INR (length xs - 1) = INR (length xs) - 1)
    by (rewrite minus_INR by lia; reflexivity).
  assert (H2 : 1 < INR (length xs))
    by (change 1 with (INR 1); apply lt_INR; lia).
  rewrite div_finite by lra. rewrite H1. reflexivity.
Qed.

Lemma sample_stddev_alt (xs : list R) :
  sample_stddev xs
  = R_sqrt.sqrt (Rsum (map (fun x => (Rmean xs - x) ^ 2) xs)
                 / (INR (length xs) - 1)).
Proof.
  unfold sample_stddev. do 3 f_equal. apply map_ext. intros x. ring.
Qed.

Lemma std_finite (s : Series) (xs : list R) :
  series_of s xs -> (2 <= length xs)%nat ->
  std s = Finite (sample_stddev xs).
Proof.
  intros Hs Hlen. unfold std.
  rewrite (var_finite s xs Hs Hlen), sample_stddev_alt.
  apply sqrt_finite.
  assert (H2 : 1 < INR (length xs))
    by (change 1 with (INR 1); apply lt_INR; lia).
  apply Rmult_le_pos; [apply Rsum_squares_nonneg |].
  apply Rlt_le, Rinv_0_lt_compat. lra.
Qed.


(** ** calcular_indicadores on finite returns *)

Lemma constant_series_of (s : Series) (c : R) :
  Forall (fun e => snd e = Finite c) s ->
  series_of s (map (fun _ => c) s).
Proof.
  unfold series_of, values.
  induction 1 as [| e t He _ IH]; simpl; [| rewrite He, IH]; reflexivity.
Qed.

Lemma constant_values (A : Type) (c : R) (l : list A) :
  Forall (fun x => x = c) (map (fun _ => c) l).
Proof. induction l; simpl; constructor; auto. Qed.





(** The annualised return is not the compounded (cumulative) return: a
    gain of one half followed by a loss of one half compounds to a loss of
    one quarter, while the mean return, zero, annualises to zero. *)
Example annualized_is_not_cumulative :
  let s : Series := [(1%nat, Finite (1 / 2)); (2%nat, Finite (- (1 / 2)))] in
  exists r : Indicadores,
    calcular_indicadores s 2 (Finite 0) = Ok r /\
    rentabilidad_anualizada r = Finite 0 /\
    retorno_acumulado r = Finite (- (1 / 4)).
Proof.
  intros s.
  assert (Hs : series_of s [1 / 2; - (1 / 2)]) by reflexivity.
  eexists. split; [reflexivity |].
  cbn [rentabilidad_anualizada retorno_acumulado]. split.
  - rewrite (mean_finite s _ Hs) by discriminate. cbn [add].
    rewrite pow_finite. simpl. f_equal. unfold Rmean, Rsum. simpl. field.
  - rewrite (prod_finite _ _ (series_add_scalar_finite s _ 1 Hs)).
    simpl. f_equal. unfold Rprod. simpl. field.
Qed.

(** C8: for every non-empty return series whose entries are all zero, the
    record returned by [calcular_indicadores] has cumulative return 0 and
    annualised return 0. *)
Theorem zero_returns_give_zero (s : Series) (dias_trading : nat)
    (rf : float64) :
  s <> [] -> Forall (fun e => snd e = Finite 0) s ->
  exists r : Indicadores,
    calcular_indicadores s dias_trading rf = Ok r /\
    retorno_acumulado r = Finite 0 /\
    rentabilidad_anualizada r = Finite 0.
Proof.
  intros Hne Hz.
  assert (Hs := constant_series_of s 0 Hz).
  assert (Hxs : map (fun _ : date * float64 => 0) s <> [])
    by (destruct s; [contradiction | discriminate]).
  eexists. split; [reflexivity |].
  cbn [rentabilidad_anualizada retorno_acumulado]. split.
  - rewrite (prod_finite _ _ (series_add_scalar_finite s _ 1 Hs)).
    rewrite Rprod_all_one.
    + simpl. f_equal. lra.
    + rewrite map_map. clear. induction s; simpl; constructor; auto. lra.
  - rewrite (mean_finite s _ Hs Hxs). cbn [add].
    rewrite pow_finite, (Rmean_constant 0 _ Hxs (constant_values _ 0 s)).
    rewrite Rplus_0_r, pow1. simpl. f_equal. lra.
Qed.

Lemma zero_returns_give_zero_witness :
  flat_series <> [] /\
  Forall (fun e => snd e = Finite 0) flat_series /\
  exists r : Indicadores,
    calcular_indicadores flat_series 252 (Finite (1 / 100)) = Ok r /\
    retorno_acumulado r = Finite 0 /\
    rentabilidad_anualizada r = Finite 0.
Proof.
  assert (Hne : flat_series <> []) by discriminate.
  assert (Hz : Forall (fun e => snd e = Finite 0) flat_series)
    by (repeat constructor).
  split; [exact Hne |]. split; [exact Hz |].
  exact (zero_returns_give_zero flat_series 252%nat (Finite (1 / 100))
           Hne Hz).
Defined.

(** C9: for every return series with at least two entries, the annualised
    volatility returned by [calcular_indicadores] is the sample standard
    deviation of the daily returns (denominator n - 1) times the square
    root of the number of periods per year. *)
Theorem annualized_volatility_is_sample_std (s : Series) (xs : list R)
    (dias_trading : nat) (rf : float64) :
  series_of s xs -> (2 <= length xs)%nat ->
  exists r : Indicadores,
    calcular_indicadores s dias_trading rf = Ok r /\
    volatilidad_anualizada r
    = Finite (sample_stddev xs * R_sqrt.sqrt (INR dias_trading)).
Proof.
  intros Hs Hlen. eexists. split; [reflexivity |].
  cbn [volatilidad_anualizada].
  rewrite (std_finite s xs Hs Hlen), sqrt_finite by apply pos_INR.
  reflexivity.
Qed.

Lemma annualized_volatility_is_sample_std_witness :
  series_of scenario_series scenario_values /\
  (2 <= length scenario_values)%nat /\
  exists r : Indicadores,
    calcular_indicadores scenario_series 252 (Finite (1 / 100)) = Ok r /\
    volatilidad_anualizada r
    = Finite (sample_stddev scenario_values * R_sqrt.sqrt (INR 252)).
Proof.
  assert (Hs : series_of scenario_series scenario_values) by reflexivity.
  assert (Hlen : (2 <= length scenario_values)%nat) by (simpl; lia).
  split; [exact Hs |]. split; [exact Hlen |].
  exact (annualized_volatility_is_sample_std scenario_series _ 252%nat
           (Finite (1 / 100)) Hs Hlen).
Defined.




(** ** Wealth index, running peak and drawdown *)

Lemma maximo_drawdown_unfold (s : Series) (d : nat) (rf : float64) :
  exists r : Indicadores,
    calcular_indicadores s d rf = Ok r /\
    maximo_drawdown r
    = min (drawdown_from (Finite 1) NegInf
             (scalar_add_series (Finite 1) s)).
Proof. eexists. split; reflexivity. Qed.

Lemma scalar_add_series_entries (P Q : R -> Prop) (s : Series)
    (xs : list R) :
  (forall x, Q x -> P (1 + x)) ->
  series_of s xs -> Forall Q xs ->
  entries P (scalar_add_series (Finite 1) s).
Proof.
  intros HPQ. unfold series_of, entries, values, scalar_add_series.
  revert xs. induction s as [| [d v] rest IH]; intros [| x t] Hs Hq;
    simpl in *; try discriminate; constructor.
  - injection Hs as -> _. inversion Hq; subst.
    exists (1 + x). split; [reflexivity | auto].
  - injection Hs as _ Hrest. inversion Hq; subst. eapply IH; eauto.
Qed.

Lemma maximum_valid (accp : float64) (w : R) :
  valid_peak accp -> 0 < w ->
  exists q, maximum accp (Finite w) = Finite q /\ w <= q /\ 0 < q.
Proof.
  intros [-> | [p [-> Hp]]] Hw.
  - exists w. repeat split; [lra | exact Hw].
  - unfold maximum. cbn [isnan ltb].
    destruct (Rlt_dec p w) as [Hlt | Hge].
    + exists w. repeat split; lra.
    + exists p. repeat split; lra.
Qed.

Lemma maximum_reached (accp : float64) (w w' : R) :
  peak_at_most accp w -> w <= w' -> 0 < w' ->
  exists q, maximum accp (Finite w') = Finite q /\ q = w'.
Proof.
  intros [-> | [p [-> [Hp Hpw]]]] Hw Hw'.
  - exists w'. split; reflexivity.
  - unfold maximum. cbn [isnan ltb].
    destruct (Rlt_dec p w') as [Hlt | Hge].
    + exists w'. split; reflexivity.
    + exists p. split; [reflexivity | lra].
Qed.

Lemma drawdown_from_cons (w x q : R) (accp : float64) (d : date)
    (rest : Series) :
  maximum accp (Finite (w * x)) = Finite q -> q <> 0 ->
  values (drawdown_from (Finite w) accp ((d, Finite x) :: rest))
  = Finite ((w * x - q) / q)
      :: values (drawdown_from (Finite (w * x)) (Finite q) rest).
Proof.
  intros Hmax Hq. unfold drawdown_from.
  cbn [cumprod_from isnan mul cummax_from]. rewrite Hmax.
  cbn [series_sub series_div map2 values map fst snd].
  f_equal. cbn [sub opp add]. apply div_finite. exact Hq.
Qed.

Lemma drawdown_nonpositive (growth : Series) :
  forall (w : R) (accp : float64),
  entries (fun y => 0 < y) growth -> 0 < w -> valid_peak accp ->
  Forall (fun v => exists m, v = Finite m /\ m <= 0)
         (values (drawdown_from (Finite w) accp growth)).
Proof.
  induction growth as [| [d v] rest IH]; intros w accp Hg Hw Hp.
  - constructor.
  - inversion Hg as [| ? ? [x [Hv Hx]] Hrest]; subst.
    simpl in Hv. subst v.
    assert (Hwx : 0 < w * x) by (apply Rmult_lt_0_compat; assumption).
    destruct (maximum_valid accp (w * x) Hp Hwx) as [q [Hmax [Hle Hq]]].
    rewrite (drawdown_from_cons w x q accp d rest Hmax) by lra.
    constructor.
    + exists ((w * x - q) / q). split; [reflexivity |].
      assert (Hi : 0 < / q) by (apply Rinv_0_lt_compat; exact Hq).
      unfold Rdiv. nra.
    + apply IH; auto. right. exists q. split; [reflexivity | exact Hq].
Qed.

Lemma drawdown_null (growth : Series) :
  forall (w : R) (accp : float64),
  entries (fun y => 1 <= y) growth -> 0 < w -> peak_at_most accp w ->
  Forall (fun v => exists m, v = Finite m /\ m = 0)
         (values (drawdown_from (Finite w) accp growth)).
Proof.
  induction growth as [| [d v] rest IH]; intros w accp Hg Hw Hp.
  - constructor.
  - inversion Hg as [| ? ? [x [Hv Hx]] Hrest]; subst.
    simpl in Hv. subst v.
    assert (Hwx : w <= w * x) by nra.
    destruct (maximum_reached accp w (w * x) Hp Hwx) as [q [Hmax Hq]];
      [lra |].
    rewrite (drawdown_from_cons w x q accp d rest Hmax) by lra.
    constructor.
    + exists ((w * x - q) / q). split; [reflexivity |].
      subst q. unfold Rdiv. rewrite Rminus_diag. apply Rmult_0_l.
    + apply IH; auto; [lra |].
      right. exists q. repeat split; lra.
Qed.

Lemma notna_entries (P : R -> Prop) (vs : list float64) :
  Forall (fun v => exists m, v = Finite m /\ P m) vs -> notna vs = vs.
Proof.
  unfold notna. induction 1 as [| v t [m [-> _]] _ IH]; simpl;
    [| rewrite IH]; reflexivity.
Qed.

Lemma minimum_finite (a b : R) :
  minimum (Finite a) (Finite b) = Finite a \/
  minimum (Finite a) (Finite b) = Finite b.
Proof.
  unfold minimum. cbn [isnan ltb]. destruct (Rlt_dec b a); auto.
Qed.

Lemma fold_minimum_entries (P : R -> Prop) (vs : list float64) :
  Forall (fun v => exists m, v = Finite m /\ P m) vs ->
  forall a, P a ->
  exists m, fold_left minimum vs (Finite a) = Finite m /\ P m.
Proof.
  induction 1 as [| v t [b [-> Hb]] _ IH]; intros a Ha; simpl.
  - exists a. auto.
  - destruct (minimum_finite a b) as [-> | ->]; auto.
Qed.

Lemma min_entries (P : R -> Prop) (s : Series) :
  s <> [] ->
  Forall (fun v => exists m, v = Finite m /\ P m) (values s) ->
  exists m, min s = Finite m /\ P m.
Proof.
  intros Hne H. unfold min. rewrite (notna_entries P _ H).
  destruct s as [| [d v] rest]; [contradiction |].
  cbn [values map snd] in *. inversion H as [| ? ? [a [-> Ha]] Ht]; subst.
  apply fold_minimum_entries; assumption.
Qed.

Lemma cumprod_from_length (s : Series) :
  forall acc, length (cumprod_from acc s) = length s.
Proof.
  induction s as [| [d v] rest IH]; intros acc; simpl; auto.
  destruct (isnan v); simpl; auto.
Qed.

Lemma cummax_from_length (s : Series) :
  forall acc, length (cummax_from acc s) = length s.
Proof.
  induction s as [| [d v] rest IH]; intros acc; simpl; auto.
  destruct (isnan v); simpl; auto.
Qed.

Lemma drawdown_from_length (accw accp : float64) (growth : Series) :
  length (drawdown_from accw accp growth) = length growth.
Proof.
  unfold drawdown_from, series_div, series_sub.
  rewrite !map2_length;
    rewrite ?map2_length, ?cummax_from_length, ?cumprod_from_length;
    rewrite ?cummax_from_length, ?cumprod_from_length; reflexivity.
Qed.

Lemma drawdown_from_nonempty (accw accp : float64) (s : Series) :
  s <> [] ->
  drawdown_from accw accp (scalar_add_series (Finite 1) s) <> [].
Proof.
  intros Hne H. apply (f_equal (@length _)) in H.
  rewrite drawdown_from_length in H. unfold scalar_add_series in H.
  rewrite length_map in H. destruct s; [contradiction | discriminate].
Qed.

(** C7: for every non-empty return series whose entries are all greater
    than -1, the maximum drawdown returned by [calcular_indicadores] is a
    number that is at most 0, and it is 0 when no daily return is
    negative. *)
Theorem max_drawdown_nonpositive (s : Series) (xs : list R)
    (dias_trading : nat) (rf : float64) :
  series_of s xs -> xs <> [] -> Forall (fun x => -1 < x) xs ->
  exists r : Indicadores,
    calcular_indicadores s dias_trading rf = Ok r /\
    (exists m, maximo_drawdown r = Finite m /\ m <= 0) /\
    (Forall (fun x => 0 <= x) xs -> maximo_drawdown r = Finite 0).
Proof.
  intros Hs Hne Hgt.
  destruct (maximo_drawdown_unfold s dias_trading rf) as [r [Hr Hdd]].
  exists r. split; [exact Hr |]. rewrite Hdd.
  assert (Hsne : s <> []).
  { intros ->. unfold series_of in Hs. destruct xs;
      [contradiction | discriminate]. }
  assert (Hdne := drawdown_from_nonempty (Finite 1) NegInf s Hsne).
  split.
  - apply min_entries; [exact Hdne |].
    apply drawdown_nonpositive; [| lra | left; reflexivity].
    apply (scalar_add_series_entries _ (fun x => -1 < x) s xs); auto.
    intros x Hx. lra.
  - intros Hpos.
    destruct (min_entries (fun m => m = 0) _ Hdne) as [m [Hm ->]];
      [| exact Hm].
    apply (drawdown_null _ 1); [| lra | left; reflexivity].
    apply (scalar_add_series_entries _ (fun x => 0 <= x) s xs); auto.
    intros x Hx. lra.
Qed.

Lemma max_drawdown_nonpositive_witness :
  series_of scenario_series scenario_values /\
  scenario_values <> [] /\
  Forall (fun x => -1 < x) scenario_values /\
  exists r : Indicadores,
    calcular_indicadores scenario_series 252 (Finite (1 / 100)) = Ok r /\
    (exists m, maximo_drawdown r = Finite m /\ m <= 0) /\
    (Forall (fun x => 0 <= x) scenario_values ->
     maximo_drawdown r = Finite 0).
Proof.
  assert (Hs : series_of scenario_series scenario_values) by reflexivity.
  assert (Hne : scenario_values <> []) by discriminate.
  assert (Hgt : Forall (fun x => -1 < x) scenario_values)
    by (repeat constructor; lra).
  split; [exact Hs |]. split; [exact Hne |]. split; [exact Hgt |].
  exact (max_drawdown_nonpositive scenario_series scenario_values 252%nat
           (Finite (1 / 100)) Hs Hne Hgt).
Defined.

(** A gain of one half followed by a loss of one half: the wealth goes from
    3/2 down to 3/4, a drawdown of one half from the peak. *)
Example drawdown_after_a_loss :
  let s : Series := [(1%nat, Finite (1 / 2)); (2%nat, Finite (- (1 / 2)))] in
  exists r : Indicadores,
    calcular_indicadores s 252 (Finite (1 / 100)) = Ok r /\
    maximo_drawdown r = Finite (- (1 / 2)).
Proof.
  intros s.
  destruct (maximo_drawdown_unfold s 252 (Finite (1 / 100)))
    as [r [Hr Hdd]].
  exists r. split; [exact Hr |]. rewrite Hdd. clear Hr Hdd r.
  unfold min, s, scalar_add_series. cbn [map fst snd add].
  rewrite (drawdown_from_cons 1 (1 + 1 / 2) (1 * (1 + 1 / 2)))
    by (reflexivity || lra).
  rewrite (drawdown_from_cons _ (1 + - (1 / 2)) (1 * (1 + 1 / 2))).
  - cbn [drawdown_from cumprod_from cummax_from series_sub series_div map2
         values map notna filter isnan negb fold_left].
    unfold minimum. cbn [isnan ltb].
    destruct (Rlt_dec _ _) as [_ | Hge]; [f_equal; field | lra].
  - unfold maximum. cbn [isnan ltb].
    destruct (Rlt_dec _ _) as [Hlt | _]; [lra | reflexivity].
  - lra.
Qed.

(** The end-to-end scenario: the record computed from the two portfolio
    returns 0 and 53/9996 has cumulative return 53/9996 (0.0053). *)
Example scenario_cumulative_return :
  exists r : Indicadores,
    calcular_indicadores scenario_series 252 (Finite (1 / 100)) = Ok r /\
    retorno_acumulado r = Finite (53 / 9996).
Proof.
  assert (Hs : series_of scenario_series scenario_values) by reflexivity.
  eexists. split; [reflexivity |].
  cbn [retorno_acumulado].
  rewrite (prod_finite _ _ (series_add_scalar_finite _ _ 1 Hs)).
  simpl. f_equal. unfold Rprod. simpl. field.
Qed.

(** ** More on calcular_indicadores: cumulative return and the drawn curve *)

Lemma scalar_add_series_finite (s : Series) (xs : list R) (c : R) :
  series_of s xs ->
  series_of (scalar_add_series (Finite c) s) (map (fun x => c + x) xs).
Proof.
  unfold series_of, values, scalar_add_series. revert xs.
  induction s as [| [d v] rest IH]; intros [| x t] H; simpl in *;
    try discriminate; auto.
  injection H as -> Hrest. f_equal. apply IH. exact Hrest.
Qed.

Lemma last_cons {A : Type} (x d : A) (l : list A) :
  last (x :: l) d = last l x.
Proof.
  revert x d. induction l as [| y t IH]; intros x d; [reflexivity |].
  change (last (x :: y :: t) d) with (last (y :: t) d).
  rewrite (IH y d), (IH y x). reflexivity.
Qed.

Lemma cumprod_from_last (g : Series) :
  forall (ys : list R) (a : R), series_of g ys ->
  last (values (cumprod_from (Finite a) g)) (Finite a)
  = Finite (fold_left Rmult ys a).
Proof.
  unfold series_of, values.
  induction g as [| [d v] rest IH]; intros [| y t] a H; simpl in H;
    try discriminate; [reflexivity |].
  injection H as -> Hrest.
  cbn [cumprod_from isnan mul map snd fold_left]. rewrite last_cons.
  apply (IH t (a * y)). exact Hrest.
Qed.

Lemma cumprod_from_dates (g : Series) :
  forall acc, map fst (cumprod_from acc g) = map fst g.
Proof.
  induction g as [| [d v] rest IH]; intros acc; [reflexivity |].
  cbn [cumprod_from]. destruct (isnan v); cbn [map fst]; f_equal; auto.
Qed.

Lemma Rprod_growth (xs : list R) :
  Rprod (map (fun x => 1 + x) xs) = Rprod (map (fun x => x + 1) xs).
Proof.
  f_equal. apply map_ext. intros x. ring.
Qed.



(** X2: The chart of [graficar_rentabilidad_cartera] is one line, labelled
    Cartera, with one point per date of the series; for a non-empty series
    of finite returns its last point is 1 plus the cumulative return that
    [calcular_indicadores] reports for the same series. *)
Theorem drawn_curve_ends_at_cumulative_return (s : Series) (xs : list R)
    (dias_trading : nat) (rf : float64) :
  series_of s xs -> xs <> [] ->
  exists (curve : Series) (r : Indicadores) (total : R),
    drawn_lines (graficar_rentabilidad_cartera s)
    = [("Cartera"%string, curve)] /\
    map fst curve = map fst s /\
    calcular_indicadores s dias_trading rf = Ok r /\
    retorno_acumulado r = Finite total /\
    last (values curve) NaN = Finite (1 + total).
Proof.
  intros Hs Hne.
  exists (cumprod (scalar_add_series (Finite 1) s)).
  eexists. exists (Rprod (map (fun x => 1 + x) xs) - 1).
  split; [reflexivity |]. split.
  { unfold cumprod. rewrite cumprod_from_dates. unfold scalar_add_series.
    rewrite map_map. reflexivity. }
  split; [reflexivity |]. split.
  { cbn [retorno_acumulado].
    rewrite (prod_finite _ _ (series_add_scalar_finite s xs 1 Hs)).
    rewrite Rprod_growth. reflexivity. }
  assert (Hg := scalar_add_series_finite s xs 1 Hs).
  assert (Hl := cumprod_from_last _ _ 1 Hg).
  unfold cumprod.
  destruct (values (cumprod_from (Finite 1)
                      (scalar_add_series (Finite 1) s))) as [| v vs] eqn:Hv.
  - exfalso. apply (f_equal (@length _)) in Hv.
    unfold values in Hv.
    rewrite length_map, cumprod_from_length in Hv.
    unfold scalar_add_series in Hv. rewrite length_map in Hv.
    unfold series_of, values in Hs. apply (f_equal (@length _)) in Hs.
    rewrite !length_map in Hs. destruct xs; [contradiction |].
    simpl in *. lia.
  - rewrite last_cons in *. rewrite Hl. unfold Rprod. f_equal. ring.
Qed.

Lemma drawn_curve_ends_at_cumulative_return_witness :
  series_of scenario_series scenario_values /\ scenario_values <> [] /\
  exists (curve : Series) (r : Indicadores) (total : R),
    drawn_lines (graficar_rentabilidad_cartera scenario_series)
    = [("Cartera"%string, curve)] /\
    map fst curve = map fst scenario_series /\
    calcular_indicadores scenario_series 252 (Finite (1 / 100)) = Ok r /\
    retorno_acumulado r = Finite total /\
    last (values curve) NaN = Finite (1 + total).
Proof.
  assert (Hs : series_of scenario_series scenario_values) by reflexivity.
  assert (Hne : scenario_values <> []) by discriminate.
  split; [exact Hs |]. split; [exact Hne |].
  exact (drawn_curve_ends_at_cumulative_return scenario_series
           scenario_values 252%nat (Finite (1 / 100)) Hs Hne).
Defined.

(** ** Too few returns for a standard deviation *)


Lemma short_series_std (s : Series) (xs : list R) :
  series_of s xs -> (length xs < 2)%nat -> std s = NaN.
Proof.
  intros Hs Hlen. unfold std, var.
  rewrite (count_finite s xs Hs).
  destruct (Nat.leb (length xs) 1) eqn:E;
    [reflexivity | apply Nat.leb_gt in E; lia].
Qed.



(** ** Bounds of the maximum drawdown *)

Lemma drawdown_bounded (growth : Series) :
  forall (w : R) (accp : float64),
  entries (fun y => 0 < y) growth -> 0 < w -> valid_peak accp ->
  Forall (fun v => exists m, v = Finite m /\ -1 <= m <= 0)
         (values (drawdown_from (Finite w) accp growth)).
Proof.
  induction growth as [| [d v] rest IH]; intros w accp Hg Hw Hp.
  - constructor.
  - inversion Hg as [| ? ? [x [Hv Hx]] Hrest]; subst.
    simpl in Hv. subst v.
    assert (Hwx : 0 < w * x) by (apply Rmult_lt_0_compat; assumption).
    destruct (maximum_valid accp (w * x) Hp Hwx) as [q [Hmax [Hle Hq]]].
    rewrite (drawdown_from_cons w x q accp d rest Hmax) by lra.
    constructor.
    + exists ((w * x - q) / q). split; [reflexivity |].
      assert (Hi : 0 < / q) by (apply Rinv_0_lt_compat; exact Hq).
      assert (Hqi : q * / q = 1) by (apply Rinv_r; lra).
      unfold Rdiv. split; nra.
    + apply IH; auto. right. exists q. split; [reflexivity | exact Hq].
Qed.

(** X5: For a non-empty series of finite returns all greater than -1, the
    maximum drawdown is a number between -1 and 0, bounds included: the
    wealth index cannot lose more than the whole of its peak value. *)
Theorem max_drawdown_not_below_minus_one (s : Series) (xs : list R)
    (dias_trading : nat) (rf : float64) :
  series_of s xs -> xs <> [] -> Forall (fun x => -1 < x) xs ->
  exists (r : Indicadores) (m : R),
    calcular_indicadores s dias_trading rf = Ok r /\
    maximo_drawdown r = Finite m /\ -1 <= m <= 0.
Proof.
  intros Hs Hne Hgt.
  destruct (maximo_drawdown_unfold s dias_trading rf) as [r [Hr Hdd]].
  assert (Hsne : s <> []).
  { intros ->. unfold series_of in Hs. destruct xs;
      [contradiction | discriminate]. }
  assert (Hdne := drawdown_from_nonempty (Finite 1) NegInf s Hsne).
  destruct (min_entries (fun m => -1 <= m <= 0) _ Hdne) as [m [Hm Hb]].
  - apply drawdown_bounded; [| lra | left; reflexivity].
    apply (scalar_add_series_entries _ (fun x => -1 < x) s xs); auto.
    intros x Hx. lra.
  - exists r, m. rewrite Hdd. auto.
Qed.

Lemma max_drawdown_not_below_minus_one_witness :
  series_of scenario_series scenario_values /\
  scenario_values <> [] /\
  Forall (fun x => -1 < x) scenario_values /\
  exists (r : Indicadores) (m : R),
    calcular_indicadores scenario_series 252 (Finite (1 / 100)) = Ok r /\
    maximo_drawdown r = Finite m /\ -1 <= m <= 0.
Proof.
  assert (Hs : series_of scenario_series scenario_values) by reflexivity.
  assert (Hne : scenario_values <> []) by discriminate.
  assert (Hgt : Forall (fun x => -1 < x) scenario_values)
    by (repeat constructor; lra).
  split; [exact Hs |]. split; [exact Hne |]. split; [exact Hgt |].
  exact (max_drawdown_not_below_minus_one scenario_series scenario_values
           252%nat (Finite (1 / 100)) Hs Hne Hgt).
Defined.

(** ** The order of the days *)

Lemma Rsum_perm (xs ys : list R) : Permutation xs ys -> Rsum xs = Rsum ys.
Proof.
  induction 1 as [| x l l' _ IH | x y l | l l' l'' _ IH1 _ IH2].
  - reflexivity.
  - rewrite !Rsum_cons, IH. reflexivity.
  - rewrite !Rsum_cons. lra.
  - congruence.
Qed.

Lemma fold_Rmult_shift (xs : list R) :
  forall a, fold_left Rmult xs a = a * fold_left Rmult xs 1.
Proof.
  induction xs as [| x t IH]; intros a; simpl; [lra |].
  rewrite (IH (a * x)), (IH (1 * x)). ring.
Qed.

Lemma Rprod_cons (x : R) (xs : list R) : Rprod (x :: xs) = x * Rprod xs.
Proof.
  unfold Rprod. simpl. rewrite fold_Rmult_shift. ring.
Qed.

Lemma Rprod_perm (xs ys : list R) :
  Permutation xs ys -> Rprod xs = Rprod ys.
Proof.
  induction 1 as [| x l l' _ IH | x y l | l l' l'' _ IH1 _ IH2].
  - reflexivity.
  - rewrite !Rprod_cons, IH. reflexivity.
  - rewrite !Rprod_cons. ring.
  - congruence.
Qed.

Lemma Rmean_perm (xs ys : list R) :
  Permutation xs ys -> Rmean xs = Rmean ys.
Proof.
  intros H. unfold Rmean.
  rewrite (Rsum_perm xs ys H), (Permutation_length H). reflexivity.
Qed.

Lemma sample_stddev_perm (xs ys : list R) :
  Permutation xs ys -> sample_stddev xs = sample_stddev ys.
Proof.
  intros H. unfold sample_stddev.
  rewrite (Rmean_perm xs ys H), (Permutation_length H).
  rewrite (Rsum_perm _ _ (Permutation_map (fun x => (x - Rmean ys) ^ 2) H)).
  reflexivity.
Qed.

Lemma mean_perm (s s' : Series) (xs xs' : list R) :
  series_of s xs -> series_of s' xs' -> Permutation xs xs' ->
  mean s = mean s'.
Proof.
  intros Hs Hs' H. unfold mean.
  rewrite (count_finite s xs Hs), (count_finite s' xs' Hs').
  rewrite (nansum_finite s xs Hs), (nansum_finite s' xs' Hs').
  rewrite (Rsum_perm xs xs' H), (Permutation_length H). reflexivity.
Qed.

Lemma std_perm (s s' : Series) (xs xs' : list R) :
  series_of s xs -> series_of s' xs' -> Permutation xs xs' ->
  std s = std s'.
Proof.
  intros Hs Hs' H.
  assert (Hl := Permutation_length H).
  destruct (le_lt_dec 2 (length xs)) as [Hlen | Hlen].
  - rewrite (std_finite s xs Hs Hlen).
    rewrite (std_finite s' xs' Hs') by lia.
    rewrite (sample_stddev_perm xs xs' H). reflexivity.
  - rewrite (short_series_std s xs Hs Hlen).
    rewrite (short_series_std s' xs' Hs') by lia. reflexivity.
Qed.

(** X6: Two series of finite returns that hold the same returns in a different
    order have the same annualised return, annualised volatility, Sharpe
    ratio and cumulative return. *)
Theorem indicators_ignore_the_order_of_days (s s' : Series)
    (xs xs' : list R) (dias_trading : nat) (rf : float64) :
  series_of s xs -> series_of s' xs' -> Permutation xs xs' ->
  exists r r' : Indicadores,
    calcular_indicadores s dias_trading rf = Ok r /\
    calcular_indicadores s' dias_trading rf = Ok r' /\
    rentabilidad_anualizada r = rentabilidad_anualizada r' /\
    volatilidad_anualizada r = volatilidad_anualizada r' /\
    ratio_de_sharpe r = ratio_de_sharpe r' /\
    retorno_acumulado r = retorno_acumulado r'.
Proof.
  intros Hs Hs' H.
  do 2 eexists. split; [reflexivity |]. split; [reflexivity |].
  cbn [rentabilidad_anualizada volatilidad_anualizada ratio_de_sharpe
       retorno_acumulado].
  rewrite (mean_perm s s' xs xs' Hs Hs' H).
  rewrite (std_perm s s' xs xs' Hs Hs' H).
  repeat split.
  rewrite (prod_finite _ _ (series_add_scalar_finite s xs 1 Hs)).
  rewrite (prod_finite _ _ (series_add_scalar_finite s' xs' 1 Hs')).
  rewrite (Rprod_perm _ _ (Permutation_map (fun x => x + 1) H)).
  reflexivity.
Qed.

Lemma indicators_ignore_the_order_of_days_witness :
  series_of gain_then_loss gain_then_loss_values /\
  series_of loss_then_gain loss_then_gain_values /\
  Permutation gain_then_loss_values loss_then_gain_values /\
  exists r r' : Indicadores,
    calcular_indicadores gain_then_loss 252 (Finite (1 / 100)) = Ok r /\
    calcular_indicadores loss_then_gain 252 (Finite (1 / 100)) = Ok r' /\
    rentabilidad_anualizada r = rentabilidad_anualizada r' /\
    volatilidad_anualizada r = volatilidad_anualizada r' /\
    ratio_de_sharpe r = ratio_de_sharpe r' /\
    retorno_acumulado r = retorno_acumulado r'.
Proof.
  assert (Hs : series_of gain_then_loss gain_then_loss_values)
    by reflexivity.
  assert (Hs' : series_of loss_then_gain loss_then_gain_values)
    by reflexivity.
  assert (Hp : Permutation gain_then_loss_values loss_then_gain_values)
    by apply perm_swap.
  split; [exact Hs |]. split; [exact Hs' |]. split; [exact Hp |].
  exact (indicators_ignore_the_order_of_days gain_then_loss loss_then_gain
           _ _ 252%nat (Finite (1 / 100)) Hs Hs' Hp).
Defined.

(** The maximum drawdown is not among them: the loss taken first leaves no
    drawdown, the gain taken first leaves one of a half (see
    [drawdown_after_a_loss]). *)
Example drawdown_after_a_recovery :
  exists r : Indicadores,
    calcular_indicadores loss_then_gain 252 (Finite (1 / 100)) = Ok r /\
    maximo_drawdown r = Finite 0.
Proof.
  destruct (maximo_drawdown_unfold loss_then_gain 252 (Finite (1 / 100)))
    as [r [Hr Hdd]].
  exists r. split; [exact Hr |]. rewrite Hdd. clear Hr Hdd r.
  unfold min, loss_then_gain, scalar_add_series. cbn [map fst snd add].
  rewrite (drawdown_from_cons 1 (1 + - (1 / 2)) (1 * (1 + - (1 / 2))))
    by (reflexivity || lra).
  rewrite (drawdown_from_cons _ (1 + 1 / 2)
             (1 * (1 + - (1 / 2)) * (1 + 1 / 2))).
  - cbn [drawdown_from cumprod_from cummax_from series_sub series_div map2
         values map notna filter isnan negb fold_left].
    unfold minimum. cbn [isnan ltb].
    destruct (Rlt_dec _ _) as [Hlt | _]; f_equal; lra.
  - unfold maximum. cbn [isnan ltb].
    destruct (Rlt_dec _ _) as [_ | Hge]; [reflexivity | lra].
  - lra.
Qed.

(** ** Tables with missing prices *)

Lemma valid_complete_prices (r : list float64) :
  Forall price_or_missing r -> existsb isnan r = false -> Forall price r.
Proof.
  induction 1 as [| c t Hc _ IH]; intros Hn; [constructor |].
  cbn [existsb] in Hn. apply orb_false_iff in Hn as [Hc' Ht].
  constructor; [| apply IH; exact Ht].
  destruct Hc as [-> | Hp]; [discriminate | exact Hp].
Qed.

Lemma prices_valid (r : list float64) :
  Forall price r -> Forall price_or_missing r.
Proof.
  intros H. eapply Forall_impl; [| exact H]. intros c Hc. right. exact Hc.
Qed.

Lemma repeat_nan_valid (n : nat) : Forall price_or_missing (repeat NaN n).
Proof. induction n; simpl; constructor; auto. left. reflexivity. Qed.

Lemma ffill_row_valid (prev r : list float64) :
  Forall price_or_missing prev -> Forall price_or_missing r ->
  Forall price_or_missing
    (map2 (fun p c => if isnan c then p else c) prev r).
Proof.
  intros Hp. revert r. induction Hp as [| p t Hp0 _ IH]; intros r Hr;
    [constructor |].
  destruct Hr as [| c t' Hc Hr']; [constructor |].
  cbn [map2]. constructor; [| apply IH; exact Hr'].
  destruct (isnan c); assumption.
Qed.

Lemma ffill_from_valid (rs : list (date * list float64)) :
  forall prev, Forall price_or_missing prev ->
  Forall (fun r => Forall price_or_missing (snd r)) rs ->
  Forall (fun r => Forall price_or_missing (snd r)) (ffill_from prev rs).
Proof.
  induction rs as [| [d r] rest IH]; intros prev Hp Hrs; [constructor |].
  inversion Hrs as [| ? ? Hr Hrest]; subst. simpl in Hr.
  cbn [ffill_from].
  assert (Hv := ffill_row_valid prev r Hp Hr).
  constructor; [exact Hv | apply IH; assumption].
Qed.

Lemma fill_valid (fm : fill_method) (rs : list (date * list float64)) :
  Forall (fun r => Forall price_or_missing (snd r)) rs ->
  Forall (fun r => Forall price_or_missing (snd r)) (fill fm rs).
Proof.
  intros H. destruct fm; [| exact H].
  destruct rs as [| [d r] rest]; [constructor |].
  inversion H as [| ? ? Hr Hrest]; subst.
  cbn [fill ffill]. constructor; [exact Hr |].
  apply ffill_from_valid; assumption.
Qed.

(** A date is kept exactly when its row and the row before are complete. *)
Lemma kept_iff_complete_pair (d : date) (r prev : list float64) :
  length r = length prev ->
  Forall price_or_missing r -> Forall price_or_missing prev ->
  complete (d, asset_returns r prev)
  = negb (existsb isnan prev) && negb (existsb isnan r).
Proof.
  intros Hlen Hr Hp. rewrite complete_row.
  destruct (existsb isnan prev) eqn:Ep.
  - rewrite asset_returns_nan; [reflexivity | exact Hlen |].
    rewrite Ep. apply orb_true_r.
  - destruct (existsb isnan r) eqn:Er.
    + rewrite asset_returns_nan; [reflexivity | exact Hlen |].
      rewrite Er. reflexivity.
    + rewrite asset_returns_prices; [reflexivity | |];
        apply valid_complete_prices; assumption.
Qed.

Lemma kept_dates (n : nat) (rs : list (date * list float64)) :
  forall prev, length prev = n -> Forall price_or_missing prev ->
  Forall (fun r => length (snd r) = n) rs ->
  Forall (fun r => Forall price_or_missing (snd r)) rs ->
  map fst (filter complete (pct_from prev rs))
  = complete_pair_dates (negb (existsb isnan prev)) rs.
Proof.
  induction rs as [| [d r] rest IH]; intros prev Hlp Hvp Hls Hvs;
    [reflexivity |].
  inversion Hls as [| ? ? Hlr Hlrest]; subst.
  inversion Hvs as [| ? ? Hvr Hvrest]; subst. simpl in Hlr, Hvr.
  rewrite pct_from_cons. cbn [filter complete_pair_dates].
  rewrite (kept_iff_complete_pair d r prev Hlr Hvr Hvp).
  rewrite (complete_row d r).
  destruct (negb (existsb isnan prev) && negb (existsb isnan r));
    cbn [map fst]; [f_equal |]; apply IH; auto.
Qed.

Lemma well_formed_rows (df : DataFrame) (n : nat) :
  well_formed df -> shape1 df = n ->
  Forall (fun r => length (snd r) = n) (rows df).
Proof.
  unfold well_formed, shape1. intros H <-. exact H.
Qed.

(** X7: For every well-formed table whose cells are prices or missing, with at
    least one column, the dates of the returned series are exactly the
    dates whose row and whose previous row are both complete, in the table
    as [pct_change] fills it. *)
Theorem surviving_dates_have_complete_pairs (fm : fill_method)
    (df : DataFrame) (cap : py_number) :
  representable cap ->
  well_formed df -> valid_cells df -> (1 <= shape1 df)%nat ->
  exists s : Series,
    calcular_rentabilidad fm df cap = Ok s /\
    map fst s = complete_pair_dates false (fill fm (rows df)).
Proof.
  intros Hcap Hwf Hv Hn.
  destruct (shape1 df) as [| k] eqn:Hk; [lia |].
  eexists.
  split; [apply (calcular_rentabilidad_columns fm df cap k Hk Hcap) |].
  rewrite row_dot_dates.
  rewrite (kept_dates (S k)).
  - reflexivity.
  - apply repeat_length.
  - apply repeat_nan_valid.
  - apply fill_shape. apply well_formed_rows; assumption.
  - apply fill_valid. exact Hv.
Qed.

Lemma gappy_table_well_formed : well_formed gappy_table.
Proof. repeat constructor. Qed.

Lemma gappy_table_valid : valid_cells gappy_table.
Proof.
  unfold valid_cells, gappy_table; cbn [rows].
  repeat match goal with
         | |- Forall _ _ => constructor; cbn [snd]
         end; prove_cell.
Qed.

Lemma gappy_table_columns : (1 <= shape1 gappy_table)%nat.
Proof. unfold shape1, gappy_table; simpl; lia. Qed.

Lemma surviving_dates_have_complete_pairs_witness :
  representable (PyInt 100000) /\
  well_formed gappy_table /\ valid_cells gappy_table /\
  (1 <= shape1 gappy_table)%nat /\
  exists s : Series,
    calcular_rentabilidad no_fill gappy_table (PyInt 100000) = Ok s /\
    map fst s = complete_pair_dates false (fill no_fill (rows gappy_table)).
Proof.
  split; [exact default_capital_representable |].
  split; [exact gappy_table_well_formed |].
  split; [exact gappy_table_valid |].
  split; [exact gappy_table_columns |].
  exact (surviving_dates_have_complete_pairs no_fill gappy_table
           (PyInt 100000) default_capital_representable
           gappy_table_well_formed gappy_table_valid gappy_table_columns).
Defined.

(** The two fill defaults on a table with a gap: without filling only the
    last date has a complete row before it; with forward filling every date
    but the first is kept. *)
Example gappy_table_dates :
  complete_pair_dates false (fill no_fill (rows gappy_table)) = [3%nat] /\
  complete_pair_dates false (fill pad (rows gappy_table))
  = [1%nat; 2%nat; 3%nat].
Proof. split; reflexivity. Qed.

(** ** Forward filling keeps every date but the first *)

Lemma ffill_row_prices (prev r : list float64) :
  length prev = length r ->
  Forall price prev -> Forall price_or_missing r ->
  Forall price (map2 (fun p c => if isnan c then p else c) prev r).
Proof.
  intros Hlen Hp. revert r Hlen.
  induction Hp as [| p t Hp0 _ IH]; intros r Hlen Hr; [constructor |].
  destruct Hr as [| c t' Hc Hr']; [constructor |].
  cbn [map2]. constructor; [| apply IH; auto].
  destruct Hc as [-> | Hc]; [exact Hp0 |].
  rewrite (price_not_nan c Hc). exact Hc.
Qed.

Lemma ffill_from_prices (n : nat) (rs : list (date * list float64)) :
  forall prev, length prev = n -> Forall price prev ->
  Forall (fun r => length (snd r) = n) rs ->
  Forall (fun r => Forall price_or_missing (snd r)) rs ->
  Forall (fun r => Forall price (snd r)) (ffill_from prev rs).
Proof.
  induction rs as [| [d r] rest IH]; intros prev Hlp Hp Hls Hvs;
    [constructor |].
  inversion Hls as [| ? ? Hlr Hlrest]; subst.
  inversion Hvs as [| ? ? Hvr Hvrest]; subst. simpl in Hlr, Hvr.
  cbn [ffill_from].
  assert (Hf := ffill_row_prices prev r (eq_sym Hlr) Hp Hvr).
  constructor; [exact Hf |].
  apply IH; auto. rewrite map2_length; lia.
Qed.

(** X8: Under the forward-filling default of [pct_change], for every
    well-formed table with at least one column whose first row is complete
    and whose other cells are prices or missing, [calcular_rentabilidad]
    drops the first date only: a price missing later counts as unchanged
    and costs no date. *)
Theorem forward_fill_keeps_later_dates (df : DataFrame) (cap : py_number)
    (d0 : date) (r0 : list float64) (rest : list (date * list float64)) :
  representable cap ->
  well_formed df -> valid_cells df -> (1 <= shape1 df)%nat ->
  rows df = (d0, r0) :: rest -> Forall price r0 ->
  exists s : Series,
    calcular_rentabilidad pad df cap = Ok s /\
    length s = length rest /\
    map fst s = map fst rest.
Proof.
  intros Hcap Hwf Hv Hn Hrows Hp0.
  destruct (shape1 df) as [| k] eqn:Hk; [lia |].
  assert (Hls := well_formed_rows df (S k) Hwf Hk).
  unfold valid_cells in Hv. rewrite Hrows in Hls, Hv.
  inversion Hls as [| ? ? Hl0 Hlrest]; subst.
  inversion Hv as [| ? ? Hv0 Hvrest]; subst. simpl in Hl0.
  eexists.
  split; [apply (calcular_rentabilidad_columns pad df cap k Hk Hcap) |].
  rewrite Hrows. cbn [fill ffill]. rewrite pct_from_cons.
  cbn [filter]. rewrite complete_row.
  rewrite asset_returns_repeat_nan by exact Hl0. cbn [negb].
  rewrite pct_from_prices_complete;
    [| exact Hp0 | apply (ffill_from_prices (S k)); auto].
  split.
  - rewrite length_map, pct_from_length, ffill_from_length. reflexivity.
  - rewrite row_dot_dates, pct_from_dates.
    clear. generalize r0. induction rest as [| [d r] t IH]; intros prev;
      [reflexivity |].
    cbn [ffill_from map fst]. f_equal. apply IH.
Qed.

Lemma forward_fill_keeps_later_dates_witness :
  representable (PyInt 100000) /\
  well_formed gappy_table /\ valid_cells gappy_table /\
  (1 <= shape1 gappy_table)%nat /\
  Forall price [Finite 100; Finite 50] /\
  exists s : Series,
    calcular_rentabilidad pad gappy_table (PyInt 100000) = Ok s /\
    length s = 3%nat /\
    map fst s = [1%nat; 2%nat; 3%nat].
Proof.
  assert (Hp : Forall price [Finite 100; Finite 50])
    by (repeat constructor; prove_price).
  split; [exact default_capital_representable |].
  split; [exact gappy_table_well_formed |].
  split; [exact gappy_table_valid |].
  split; [exact gappy_table_columns |].
  split; [exact Hp |].
  exact (forward_fill_keeps_later_dates gappy_table (PyInt 100000)
           0%nat [Finite 100; Finite 50] _ default_capital_representable
           gappy_table_well_formed gappy_table_valid gappy_table_columns
           eq_refl Hp).
Defined.

(** ** The range of the portfolio returns *)









(** ** Prices in another unit *)

Lemma Rsgn_scale (x k : R) : 0 < k -> Rsgn (x * k) = Rsgn x.
Proof.
  intros Hk. destruct (total_order_T x 0) as [[Hx | Hx] | Hx].
  - rewrite (Rsgn_neg x Hx). apply Rsgn_neg. nra.
  - subst x. rewrite Rmult_0_l. reflexivity.
  - rewrite (Rsgn_pos x Hx). apply Rsgn_pos. nra.
Qed.

Lemma isnan_scale (c : float64) (k : R) :
  0 < k -> isnan (mul c (Finite k)) = isnan c.
Proof.
  intros Hk. destruct c; simpl; unfold scale_inf;
    rewrite ?(Rsgn_pos k Hk); reflexivity.
Qed.

Lemma div_scale (a b : float64) (k : R) :
  0 < k -> div (mul a (Finite k)) (mul b (Finite k)) = div a b.
Proof.
  intros Hk.
  destruct a as [x | | |], b as [y | | |]; cbn [mul]; unfold scale_inf;
    rewrite ?(Rsgn_pos k Hk); cbn [div]; unfold scale_inf;
    rewrite ?(Rsgn_scale _ k Hk); try reflexivity.
  assert (Hy : Rsgn y <> Eq -> y <> 0)
    by (intros H ->; apply H; exact Rsgn_zero).
  destruct (Rsgn y) eqn:E; try reflexivity;
    f_equal; field; (split; [apply Hy; discriminate | lra]).
Qed.

Lemma scale_row_length (ks : list R) (r : list float64) :
  length r = length ks -> length (scale_row ks r) = length r.
Proof. apply map2_length. Qed.

Lemma asset_returns_scale (ks : list R) :
  Forall (fun k => 0 < k) ks ->
  forall r prev, length r = length ks -> length prev = length ks ->
  asset_returns (scale_row ks r) (scale_row ks prev) = asset_returns r prev.
Proof.
  induction 1 as [| k t Hk _ IH]; intros [| a r] [| b prev] Hr Hp;
    simpl in Hr, Hp; try discriminate; [reflexivity |].
  cbn [scale_row map2]. rewrite !asset_returns_cons.
  rewrite (div_scale a b k Hk). f_equal.
  apply IH; lia.
Qed.

Lemma scale_row_nan (ks : list R) :
  scale_row ks (repeat NaN (length ks)) = repeat NaN (length ks).
Proof.
  induction ks as [| k t IH]; [reflexivity |].
  cbn [length repeat scale_row map2 mul]. f_equal. exact IH.
Qed.

Lemma pct_from_scale (ks : list R) (rs : list (date * list float64)) :
  Forall (fun k => 0 < k) ks ->
  forall prev, length prev = length ks ->
  Forall (fun r => length (snd r) = length ks) rs ->
  pct_from (scale_row ks prev) (scale_rows ks rs) = pct_from prev rs.
Proof.
  intros Hks. induction rs as [| [d r] rest IH]; intros prev Hp Hrs;
    [reflexivity |].
  inversion Hrs as [| ? ? Hr Hrest]; subst. simpl in Hr.
  cbn [scale_rows map fst snd]. rewrite !pct_from_cons.
  rewrite (asset_returns_scale ks Hks r prev Hr Hp). f_equal.
  apply IH; assumption.
Qed.

Lemma ffill_row_scale (ks : list R) :
  Forall (fun k => 0 < k) ks ->
  forall prev r, length prev = length ks -> length r = length ks ->
  map2 (fun p c => if isnan c then p else c)
       (scale_row ks prev) (scale_row ks r)
  = scale_row ks (map2 (fun p c => if isnan c then p else c) prev r).
Proof.
  induction 1 as [| k t Hk _ IH]; intros [| p prev] [| c r] Hp Hr;
    simpl in Hp, Hr; try discriminate; [reflexivity |].
  cbn [scale_row map2]. rewrite (isnan_scale c k Hk).
  f_equal; [destruct (isnan c); reflexivity |].
  apply IH; lia.
Qed.

Lemma ffill_from_scale (ks : list R) (rs : list (date * list float64)) :
  Forall (fun k => 0 < k) ks ->
  forall prev, length prev = length ks ->
  Forall (fun r => length (snd r) = length ks) rs ->
  ffill_from (scale_row ks prev) (scale_rows ks rs)
  = scale_rows ks (ffill_from prev rs).
Proof.
  intros Hks. induction rs as [| [d r] rest IH]; intros prev Hp Hrs;
    [reflexivity |].
  inversion Hrs as [| ? ? Hr Hrest]; subst. simpl in Hr.
  cbn [scale_rows map fst snd ffill_from].
  rewrite (ffill_row_scale ks Hks prev r Hp Hr). f_equal.
  apply IH; [| assumption]. rewrite map2_length; lia.
Qed.

Lemma fill_scale (fm : fill_method) (ks : list R)
    (rs : list (date * list float64)) :
  Forall (fun k => 0 < k) ks ->
  Forall (fun r => length (snd r) = length ks) rs ->
  fill fm (scale_rows ks rs) = scale_rows ks (fill fm rs).
Proof.
  intros Hks Hrs. destruct fm; [| reflexivity].
  destruct rs as [| [d r] rest]; [reflexivity |].
  inversion Hrs as [| ? ? Hr Hrest]; subst. simpl in Hr.
  cbn [fill ffill scale_rows map fst snd]. f_equal.
  apply ffill_from_scale; assumption.
Qed.

(** X10: Returns have no unit: multiplying the prices of each ticker by a
    positive factor of its own (another currency, a split adjustment)
    changes nothing in what [calcular_rentabilidad] returns. *)
Theorem returns_do_not_depend_on_price_units (fm : fill_method)
    (df : DataFrame) (cap : py_number) (ks : list R) :
  well_formed df -> length ks = shape1 df -> Forall (fun k => 0 < k) ks ->
  calcular_rentabilidad fm (scale_columns ks df) cap
  = calcular_rentabilidad fm df cap.
Proof.
  intros Hwf Hlen Hks.
  destruct (shape1 df) as [| n] eqn:Hn.
  - rewrite !calcular_rentabilidad_no_column; auto.
  - destruct (representable_dec cap) as [Hcap | Hcap].
    2: { assert (H1 : (1 <= shape1 df)%nat) by lia.
         rewrite (calcular_rentabilidad_overflow fm df cap H1 Hcap).
         exact (calcular_rentabilidad_overflow fm (scale_columns ks df)
                  cap H1 Hcap). }
    assert (Hrs : Forall (fun r => length (snd r) = length ks) (rows df))
      by (rewrite Hlen; apply well_formed_rows; assumption).
    rewrite (calcular_rentabilidad_columns fm df cap n Hn Hcap).
    rewrite (calcular_rentabilidad_columns fm (scale_columns ks df) cap n
               Hn Hcap).
    cbn [scale_columns rows].
    rewrite (fill_scale fm ks (rows df) Hks Hrs).
    rewrite <- Hlen.
    assert (E : pct_from (repeat NaN (length ks))
                  (scale_rows ks (fill fm (rows df)))
                = pct_from (repeat NaN (length ks)) (fill fm (rows df))).
    { rewrite <- (scale_row_nan ks) at 1.
      apply pct_from_scale;
        [exact Hks | apply repeat_length | apply fill_shape; exact Hrs]. }
    rewrite E. reflexivity.
Qed.

Lemma returns_do_not_depend_on_price_units_witness :
  well_formed scenario_table /\
  length [2; 1 / 4] = shape1 scenario_table /\
  Forall (fun k => 0 < k) [2; 1 / 4] /\
  calcular_rentabilidad pad (scale_columns [2; 1 / 4] scenario_table)
    (PyInt 100000)
  = calcular_rentabilidad pad scenario_table (PyInt 100000).
Proof.
  assert (Hks : Forall (fun k => 0 < k) [2; 1 / 4])
    by (repeat constructor; lra).
  split; [exact scenario_table_well_formed |].
  split; [reflexivity |]. split; [exact Hks |].
  exact (returns_do_not_depend_on_price_units pad scenario_table
           (PyInt 100000) [2; 1 / 4] scenario_table_well_formed
           eq_refl Hks).
Defined.

(** ** One ticker: the cumulative return is the change of its price *)

Lemma single_column_cells (rs : list (date * list float64)) :
  forall qs,
  Forall (fun r => length (snd r) = 1%nat) rs ->
  map snd (map (fun r => (fst r, nth 0 (snd r) NaN)) rs) = map Finite qs ->
  Forall (fun r => existsb isnan (snd r) = false) rs.
Proof.
  induction rs as [| [d r] rest IH]; intros qs Hl Hq; [constructor |].
  inversion Hl as [| ? ? Hr Hrest]; subst. simpl in Hr.
  destruct r as [| c [| c' t]]; try discriminate.
  destruct qs as [| q qs']; [discriminate |].
  cbn [map fst snd nth] in Hq. injection Hq as -> Hq'.
  constructor; [reflexivity | eapply IH; eauto].
Qed.

Lemma own_returns_from_prices (col : Series) :
  forall (ps : list R) (p : R),
  series_of col ps -> 0 < p -> Forall (fun q => 0 < q) ps ->
  series_of (own_returns_from (Finite p) col) (simple_returns p ps).
Proof.
  unfold series_of, values.
  induction col as [| [d v] rest IH]; intros [| q t] p Hs Hp Hps;
    simpl in Hs; try discriminate; [reflexivity |].
  injection Hs as -> Hrest. inversion Hps as [| ? ? Hq Ht]; subst.
  cbn [own_returns_from simple_returns].
  rewrite div_finite by lra. cbn [sub opp add isnan map snd].
  f_equal. apply IH; assumption.
Qed.

Lemma simple_returns_telescope (ps : list R) :
  forall (p a : R), 0 < p -> Forall (fun q => 0 < q) ps ->
  fold_left Rmult (map (fun x => x + 1) (simple_returns p ps)) a
  = a * last ps p / p.
Proof.
  induction ps as [| q t IH]; intros p a Hp Hps.
  - simpl. field. lra.
  - inversion Hps as [| ? ? Hq Ht]; subst.
    cbn [simple_returns map fold_left]. rewrite (IH q _ Hq Ht).
    rewrite last_cons. field. lra.
Qed.

(** X12: With a single ticker priced on every date, the cumulative return that
    [calcular_indicadores] computes from the series of
    [calcular_rentabilidad] is the last price over the first, less 1: the
    daily returns compound back to the change of the price. *)
Theorem single_ticker_cumulative_return (fm : fill_method)
    (df : DataFrame) (cap : py_number) (dias_trading : nat) (rf : float64)
    (p0 : R) (ps : list R) :
  representable cap ->
  well_formed df -> shape1 df = 1%nat ->
  series_of (column 0 df) (p0 :: ps) ->
  Forall (fun p => 0 < p) (p0 :: ps) ->
  exists (s : Series) (r : Indicadores),
    calcular_rentabilidad fm df cap = Ok s /\
    calcular_indicadores s dias_trading rf = Ok r /\
    retorno_acumulado r = Finite (last ps p0 / p0 - 1).
Proof.
  intros Hcap Hwf Hone Hcol Hpos.
  assert (Hls := well_formed_rows df 1 Hwf Hone).
  unfold series_of, values, column in Hcol.
  assert (Hnm : no_missing df)
    by (exact (single_column_cells (rows df) (p0 :: ps) Hls Hcol)).
  destruct (rows df) as [| [d0 r0] rest] eqn:Hrows; [discriminate |].
  inversion Hls as [| ? ? Hl0 Hlrest]; subst. simpl in Hl0.
  destruct r0 as [| c [| c' t]]; try discriminate.
  cbn [map fst snd nth] in Hcol. injection Hcol as -> Hrest.
  inversion Hpos as [| ? ? Hp0 Hps]; subst.
  assert (Hs := own_returns_from_prices _ ps p0 Hrest Hp0 Hps).
  eexists. eexists.
  split.
  { rewrite (calcular_rentabilidad_no_missing fm df cap 0 d0 [Finite p0]
               rest Hcap Hwf Hnm Hone Hrows).
    rewrite (equal_weight_rows 0) by auto.
    rewrite (single_column_rows rest (Finite p0) Hlrest). reflexivity. }
  split; [reflexivity |].
  cbn [retorno_acumulado].
  rewrite (prod_finite _ _ (series_add_scalar_finite _ _ 1 Hs)).
  unfold Rprod. rewrite (simple_returns_telescope ps p0 1 Hp0 Hps).
  cbn [sub opp add]. f_equal. field. lra.
Qed.

Lemma single_ticker_cumulative_return_witness :
  representable (PyInt 100000) /\
  well_formed single_ticker_table /\ shape1 single_ticker_table = 1%nat /\
  series_of (column 0 single_ticker_table) [100; 102; 101] /\
  Forall (fun p => 0 < p) [100; 102; 101] /\
  exists (s : Series) (r : Indicadores),
    calcular_rentabilidad pad single_ticker_table (PyInt 100000) = Ok s /\
    calcular_indicadores s 252 (Finite (1 / 100)) = Ok r /\
    retorno_acumulado r = Finite (last [102; 101] 100 / 100 - 1).
Proof.
  assert (Hwf : well_formed single_ticker_table) by (repeat constructor).
  assert (Hcol : series_of (column 0 single_ticker_table) [100; 102; 101])
    by reflexivity.
  assert (Hpos : Forall (fun p => 0 < p) [100; 102; 101])
    by (repeat constructor; lra).
  split; [exact default_capital_representable |].
  split; [exact Hwf |]. split; [reflexivity |].
  split; [exact Hcol |]. split; [exact Hpos |].
  exact (single_ticker_cumulative_return pad single_ticker_table
           (PyInt 100000) 252%nat (Finite (1 / 100)) 100 [102; 101]
           default_capital_representable Hwf eq_refl Hcol Hpos).
Defined.

(** ** Indicators of a table with too few trading days *)





(** ** The chart of the prices *)

Lemma positions_not_in (label : string) (cols : list string) :
  forall j, ~ In label cols -> positions label cols j = [].
Proof.
  induction cols as [| c rest IH]; intros j Hnin; [reflexivity |].
  cbn [positions]. destruct (String.eqb c label) eqn:E.
  - apply String.eqb_eq in E. exfalso. apply Hnin. left. exact E.
  - apply IH. intros Hin. apply Hnin. right. exact Hin.
Qed.

Lemma positions_unique (label : string) (pre post : list string) :
  forall j, NoDup (pre ++ label :: post) ->
  positions label (pre ++ label :: post) j = [(j + length pre)%nat].
Proof.
  induction pre as [| c pre' IH]; intros j Hnd.
  - cbn [app positions length]. rewrite String.eqb_refl.
    inversion Hnd as [| ? ? Hnin _]; subst.
    rewrite (positions_not_in label post (S j) Hnin).
    f_equal. lia.
  - cbn [app] in *. inversion Hnd as [| ? ? Hnin Hnd']; subst.
    cbn [positions length]. destruct (String.eqb c label) eqn:E.
    + apply String.eqb_eq in E. subst c. exfalso. apply Hnin.
      apply in_or_app. right. left. reflexivity.
    + rewrite (IH (S j) Hnd'). f_equal. lia.
Qed.

Lemma plot_columns_unique (df : DataFrame) (labels : list string) :
  forall pre, columns df = pre ++ labels -> NoDup (columns df) ->
  plot_columns df labels
  = Some (map (fun j => plt_plot [column j df]
                          (nth j (columns df) EmptyString) None)
              (seq (length pre) (length labels))).
Proof.
  induction labels as [| label rest IH]; intros pre Hcols Hnd;
    [reflexivity |].
  cbn [plot_columns]. unfold getitem.
  rewrite Hcols at 1. rewrite Hcols in Hnd.
  rewrite (positions_unique label pre rest 0 Hnd).
  cbn [map Nat.add].
  rewrite (IH (pre ++ [label]));
    [| rewrite Hcols, <- app_assoc; reflexivity
     | rewrite Hcols; exact Hnd].
  rewrite length_app. cbn [length seq map].
  replace (length pre + 1)%nat with (S (length pre)) by lia.
  do 3 f_equal. rewrite Hcols. symmetry. apply nth_middle.
Qed.

Lemma drawn_lines_app (l1 l2 : list plt_call) :
  drawn_lines (l1 ++ l2) = drawn_lines l1 ++ drawn_lines l2.
Proof.
  induction l1 as [| c t IH]; [reflexivity |].
  destruct c; cbn [app drawn_lines]; rewrite IH, ?app_assoc; reflexivity.
Qed.

Lemma drawn_lines_single (f : nat -> string) (g : nat -> Series)
    (js : list nat) :
  drawn_lines (map (fun j => plt_plot [g j] (f j) None) js)
  = map (fun j => (f j, g j)) js.
Proof.
  induction js as [| j t IH]; [reflexivity |].
  cbn [map drawn_lines app]. rewrite IH. reflexivity.
Qed.

(** X14: For every table whose tickers are all different,
    [graficar_precios_cierre] finds every column it asks for and draws
    exactly one line per ticker, in the order of the columns, each with the
    prices of its column and labelled with its ticker; a table without
    ticker gives a chart without line. *)
Theorem price_chart_draws_each_ticker (df : DataFrame) :
  NoDup (columns df) ->
  exists calls : list plt_call,
    graficar_precios_cierre df = Some calls /\
    drawn_lines calls
    = map (fun j => (nth j (columns df) EmptyString, column j df))
          (seq 0 (shape1 df)).
Proof.
  intros Hnd. unfold graficar_precios_cierre.
  rewrite (plot_columns_unique df (columns df) [] eq_refl Hnd).
  eexists. split; [reflexivity |].
  rewrite !drawn_lines_app. cbn [drawn_lines app length].
  rewrite app_nil_r. unfold shape1.
  apply (drawn_lines_single (fun j => nth j (columns df) EmptyString)
           (fun j => column j df)).
Qed.

Lemma price_chart_draws_each_ticker_witness :
  NoDup (columns scenario_table) /\
  exists calls : list plt_call,
    graficar_precios_cierre scenario_table = Some calls /\
    drawn_lines calls
    = map (fun j => (nth j (columns scenario_table) EmptyString,
                     column j scenario_table))
          (seq 0 (shape1 scenario_table)).
Proof.
  assert (Hnd : NoDup (columns scenario_table)).
  { unfold scenario_table; cbn [columns].
    repeat constructor; simpl; intuition discriminate. }
  split; [exact Hnd |].
  exact (price_chart_draws_each_ticker scenario_table Hnd).
Defined.
